(** * internet.py: the group policy engine

    A shallow embedding of the policy part of [internet.py] (class
    [Internet]): the schedule test [_is_live], the mutations [add], [empty],
    [activate] and [deactivate], and the domain synthesis and body rendering
    of [update_hosts].  The parsed JSON document [self.data] is the [Store];
    the command-line namespace [self.options] is the record [Options]; the
    wall clock [datetime.now()] is an explicit [Instant]. *)

(** The second half of the file covers the rest of the class: [remove] with
    the answers to its prompt read from a list, the status line of [list],
    [_init_hosts] and the writing part of [update_hosts] over an explicit
    table of files, and the order of actions in [__init__]. *)

From Stdlib Require Import ZArith Ascii String List.
From stdpp Require Import gmap strings list sorting.

Local Open Scope Z_scope.

(** ** The Python primitives the script relies on *)

Module Py.

(** Exceptions that the modelled code can raise. *)
Inductive exn : Set :=
| ValueError       (* int() on a string that is no integer literal *)
| AttributeError.  (* attribute access on None *)

Inductive result (A : Type) : Type :=
| Ok (a : A)
| Raise (e : exn).
Global Arguments Ok {A} a.
Global Arguments Raise {A} e.

Definition bind {A B} (m : result A) (k : A → result B) : result B :=
  match m with
  | Ok a => k a
  | Raise e => Raise e
  end.

(** The two kinds of Python value that meet in [_is_live]: [now.hour] is an
    int, the entries of a group's hours list are strings. *)
Inductive value : Set :=
| Int (z : Z)
| Str (s : string).

(** [a == b]: values of different types are never equal. *)
Definition eqb (a b : value) : bool :=
  match a, b with
  | Int x, Int y => Z.eqb x y
  | Str s, Str t => bool_decide (s = t)
  | _, _ => false
  end.

(** Truth value of an optional string argument: [None] and [''] are false. *)
Definition truthy (o : option string) : bool :=
  match o with
  | None => false
  | Some s => negb (bool_decide (s = EmptyString))
  end.

Definition is_upper (c : ascii) : bool :=
  let n := N_of_ascii c in ((65 <=? n) && (n <=? 90))%N.

Definition is_digit (c : ascii) : bool :=
  let n := N_of_ascii c in ((48 <=? n) && (n <=? 57))%N.

(** Space, tab, newline, vertical tab, form feed, carriage return. *)
Definition is_space (c : ascii) : bool :=
  let n := N_of_ascii c in ((n =? 32) || ((9 <=? n) && (n <=? 13)))%N.

Definition lower_char (c : ascii) : ascii :=
  if is_upper c then ascii_of_N (N_of_ascii c + 32) else c.

(** [s.lower()] *)
Fixpoint lower (s : string) : string :=
  match s with
  | EmptyString => EmptyString
  | String c r => String (lower_char c) (lower r)
  end.

(** [re.search('[...]', s)] for a character class given as a predicate. *)
Fixpoint search_class (p : ascii → bool) (s : string) : bool :=
  match s with
  | EmptyString => false
  | String c r => p c || search_class p r
  end.

(** [s.partition(sep)] for a one-character separator: the part before the
    first separator, the separator, and the rest; [(s, '', '')] when the
    separator does not occur. *)
Fixpoint partition (sep : ascii) (s : string) : string * string * string :=
  match s with
  | EmptyString => (EmptyString, EmptyString, EmptyString)
  | String c r =>
      if bool_decide (c = sep) then (EmptyString, String sep EmptyString, r)
      else let '(h, m, t) := partition sep r in (String c h, m, t)
  end.

(** [re.match(p, s)] for a literal pattern: [p] is a prefix of [s]. *)
Fixpoint match_literal (p s : string) : bool :=
  match p, s with
  | EmptyString, _ => true
  | String a p', String b s' => bool_decide (a = b) && match_literal p' s'
  | String _ _, EmptyString => false
  end.

(** [s[n:]] *)
Fixpoint slice_from (n : nat) (s : string) : string :=
  match n, s with
  | O, _ => s
  | S n', String _ r => slice_from n' r
  | S _, EmptyString => EmptyString
  end.

Fixpoint lstrip (s : string) : string :=
  match s with
  | String c r => if is_space c then lstrip r else s
  | EmptyString => EmptyString
  end.

(** Decimal digits up to the end of the string, trailing white space
    allowed; [acc] is the value read so far and [seen] tells whether a
    digit was read. *)
Fixpoint digits (acc : Z) (seen : bool) (s : string) : option Z :=
  match s with
  | EmptyString => if seen then Some acc else None
  | String c r =>
      if is_digit c then digits (10 * acc + Z.of_N (N_of_ascii c - 48)) true r
      else if seen && is_space c then
        match lstrip r with EmptyString => Some acc | String _ _ => None end
      else None
  end.

(** [int(s)]: optional white space, an optional sign, one or more decimal
    digits, optional white space; anything else raises [ValueError]. *)
Definition int (s : string) : result Z :=
  let signed :=
    match lstrip s with
    | String "+" r => digits 0 false r
    | String "-" r => Z.opp <$> digits 0 false r
    | t => digits 0 false t
    end in
  match signed with
  | Some z => Ok z
  | None => Raise ValueError
  end.

(** [l = list(set(l)); l.sort()]: the distinct elements in ascending
    order of their characters' codes. *)
Definition sorted_set (l : list string) : list string :=
  merge_sort String.le (elements (list_to_set l : gset string)).

(** [l.remove(x)] for an [x] that occurs in [l]: drops the first
    occurrence. *)
Fixpoint list_remove (x : string) (l : list string) : list string :=
  match l with
  | [] => []
  | y :: r => if bool_decide (y = x) then r else y :: list_remove x r
  end.

(** [sep.join(l)] *)
Definition join (sep : string) (l : list string) : string :=
  String.concat sep l.

End Py.

Import Py.

#[global] Instance result_bind : MBind Py.result := λ A B k m, Py.bind m k.

(** ** Data model *)

(** One entry of [self.data['groups']]. *)
Record Group : Type := mkGroup {
  hours : list string;
  domains : list string;
  days : list string
}.

(** [self.data]: the parsed policy document. *)
Record Store : Type := mkStore {
  active : list string;
  groups : gmap string Group
}.

(** The fields of [self.options] that the policy operations read. *)
Inductive Field : Set := FHours | FDomains | FDays.

Record Options : Type := mkOptions {
  opt_group : option string;
  opt_hour : option string;
  opt_day : option string;
  opt_domain : option string;
  opt_empty : option Field
}.

Definition no_options : Options := mkOptions None None None None None.

(** What [datetime.now()] contributes: [now.hour] and [now.weekday()]. *)
Record Instant : Type := mkInstant {
  hour : Z;
  weekday : Z
}.

(** The group that [add] creates and the document that [_load_json] writes
    when there is none. *)
Definition new_group : Group := mkGroup ["*"%string] [] ["*"%string].

Definition initial_store : Store :=
  mkStore ["default"%string] {[ "default"%string := new_group ]}.

Definition set_hours (g : Group) (l : list string) : Group :=
  mkGroup l (domains g) (days g).
Definition set_days (g : Group) (l : list string) : Group :=
  mkGroup (hours g) (domains g) l.
Definition set_domains (g : Group) (l : list string) : Group :=
  mkGroup (hours g) l (days g).

(** ** _is_live *)

Definition day_name (wd : Z) : string :=
  match wd with
  | 0 => "Monday"
  | 1 => "Tuesday"
  | 2 => "Wednesday"
  | 3 => "Thursday"
  | 4 => "Friday"
  | 5 => "Saturday"
  | 6 => "Sunday"
  | _ => "*"
  end%string.

(** [re.search('\-', str)] *)
Definition has_dash (str : string) : bool :=
  search_class (λ c, bool_decide (c = "-"%char)) str.

(** The body of the loop over the hours list: does [str] set [in_hours]?
    [and] evaluates [int(hour_end)] only when the first comparison holds. *)
Definition hour_spec_live (hour : Z) (str : string) : result bool :=
  if has_dash str then
    let '(hour_start, _, hour_end) := partition "-" str in
    a ← int hour_start;
    if (a : Z) <=? hour then
      b ← int hour_end; Ok (hour <? (b : Z))
    else Ok false
  else Ok (Py.eqb (Int hour) (Str str)).

(** The loop itself: it has no [break], every entry is looked at. *)
Fixpoint hours_loop (hour : Z) (l : list string) (in_hours : bool) : result bool :=
  match l with
  | [] => Ok in_hours
  | str :: rest =>
      m ← hour_spec_live hour str;
      hours_loop hour rest (if (m : bool) then true else in_hours)
  end.

(** "Verify current day falls in days list" *)
Definition in_day (group : Group) (now : Instant) : bool :=
  if bool_decide ("*"%string ∈ days group) then true
  else if bool_decide (day_name (weekday now) ∈ days group) then true
  else false.

(** "Verify current time falls in hours range" *)
Definition in_hours (group : Group) (now : Instant) : result bool :=
  if bool_decide ("*"%string ∈ hours group) then Ok true
  else hours_loop (hour now) (hours group) false.

Definition is_live (st : Store) (groupname : string) (now : Instant) : result bool :=
  match groups st !! groupname with
  | None => Ok false
  | Some group =>
      let d := in_day group now in
      h ← in_hours group now;
      Ok ((h : bool) && d)
  end.

(** ** add *)

(** "Determine group": the name that [add] works on. *)
Definition add_groupname (o : Options) : string :=
  match opt_group o with
  | Some g => if truthy (Some g) then lower g else "default"%string
  | None => "default"%string
  end.

(** "Create group if needed": only when a group option was given. *)
Definition add_create (o : Options) (gs : gmap string Group) : gmap string Group :=
  if truthy (opt_group o) then
    match gs !! add_groupname o with
    | Some _ => gs
    | None => <[add_groupname o := new_group]> gs
    end
  else gs.

(** [self.data.get('groups').get(groupname)] followed by an attribute
    access, which fails on [None]. *)
Definition get_group (gs : gmap string Group) (groupname : string) : result Group :=
  match gs !! groupname with
  | Some g => Ok g
  | None => Raise AttributeError
  end.

(** The character class of [re.search('[0-9-\*]', self.options.hour)]. *)
Definition hour_class (c : ascii) : bool :=
  is_digit c || bool_decide (c = "-"%char) || bool_decide (c = "*"%char).

Definition hour_guard (h : string) : bool :=
  truthy (Some h) && search_class hour_class h.

Definition days_map : list string :=
  ["Monday"; "Tuesday"; "Wednesday"; "Thursday"; "Friday"; "Saturday";
   "Sunday"; "*"]%string.

Definition day_guard (d : string) : bool :=
  truthy (Some d) && bool_decide (d ∈ days_map).

(** "Determine how to add hours" (and days): the wildcard replaces the
    list, a value replaces a wildcard list, and is appended otherwise. *)
Definition add_spec (spec : string) (current : list string) : list string :=
  if bool_decide (spec = "*"%string) then ["*"%string]
  else if bool_decide ("*"%string ∈ current) then [spec]
  else current ++ [spec].

Definition add_hours (o : Options) (groupname : string) (gs : gmap string Group)
  : result (gmap string Group) :=
  match opt_hour o with
  | Some h =>
      if hour_guard h then
        group ← get_group gs groupname;
        Ok (<[groupname := set_hours group (sorted_set (add_spec h (hours group)))]> gs)
      else Ok gs
  | None => Ok gs
  end.

Definition add_days (o : Options) (groupname : string) (gs : gmap string Group)
  : result (gmap string Group) :=
  match opt_day o with
  | Some d =>
      if day_guard d then
        group ← get_group gs groupname;
        Ok (<[groupname := set_days group (sorted_set (add_spec d (days group)))]> gs)
      else Ok gs
  | None => Ok gs
  end.

(** [domain.lower()], then the prefix ['http://'] cut off when [re.match]
    finds it. *)
Definition normalize_domain (d : string) : string :=
  let domain := lower d in
  if match_literal "http://" domain
  then slice_from (String.length "http://") domain
  else domain.

Definition add_domain (o : Options) (groupname : string) (gs : gmap string Group)
  : result (gmap string Group) :=
  match opt_domain o with
  | Some d =>
      if truthy (Some d) then
        group ← get_group gs groupname;
        Ok (<[groupname := set_domains group (domains group ++ [normalize_domain d])]> gs)
      else Ok gs
  | None => Ok gs
  end.

Definition add (o : Options) (st : Store) : result Store :=
  let groupname := add_groupname o in
  gs1 ← add_hours o groupname (add_create o (groups st));
  gs2 ← add_days o groupname gs1;
  gs3 ← add_domain o groupname gs2;
  Ok (mkStore (active st ++ [groupname]) gs3).

(** A sequence of [add] invocations, one per element of [os]. *)
Fixpoint add_all (os : list Options) (st : Store) : result Store :=
  match os with
  | [] => Ok st
  | o :: rest => st' ← add o st; add_all rest st'
  end.

(** ** empty, activate, deactivate *)

Definition empty (o : Options) (st : Store) : Store :=
  match opt_group o with
  | Some g =>
      if truthy (Some g) then
        match groups st !! lower g with
        | Some group =>
            let group' :=
              match opt_empty o with
              | Some FDays => set_days group []
              | Some FDomains => set_domains group []
              | Some FHours => set_hours group []
              | None => group
              end in
            mkStore (active st) (<[lower g := group']> (groups st))
        | None => st
        end
      else st
  | None => st
  end.

Definition activate (o : Options) (st : Store) : Store :=
  match opt_group o with
  | Some g =>
      if negb (bool_decide (g ∈ active st))
         && bool_decide (is_Some (groups st !! g))
      then mkStore (active st ++ [g]) (groups st)
      else st
  | None => st
  end.

Definition deactivate (o : Options) (st : Store) : Store :=
  match opt_group o with
  | Some g =>
      if bool_decide (g ∈ active st)
         && bool_decide (is_Some (groups st !! g))
      then mkStore (list_remove g (active st)) (groups st)
      else st
  | None => st
  end.

(** ** update_hosts *)

Definition hosts_file_blackhole : string := "127.0.0.250".

(** The loop over [active]: a name is looked at only when its group exists,
    and its domains are added to the set when the group is live. *)
Fixpoint collect_domains (st : Store) (now : Instant) (names : list string)
    (acc : gset string) : result (gset string) :=
  match names with
  | [] => Ok acc
  | name :: rest =>
      match groups st !! name with
      | Some group =>
          live ← is_live st name now;
          collect_domains st now rest
            (if (live : bool) then acc ∪ list_to_set (domains group) else acc)
      | None => collect_domains st now rest acc
      end
  end.

(** ['\n{0}\t'.format(blackhole)] *)
Definition line_prefix : string :=
  String "010" (hosts_file_blackhole +:+ String "009" EmptyString).

(** The sorted domain list and the body text built from the collected set. *)
Definition render (found : gset string) : list string * string :=
  if bool_decide (0 < size found)%nat then
    let l := merge_sort String.le (elements found) in
    (l, line_prefix +:+ join line_prefix l)
  else ([], EmptyString).

Definition update_hosts (st : Store) (now : Instant) : result (list string * string) :=
  found ← collect_domains st now (active st) ∅;
  Ok (render found).

(** The domains to block at [now]. *)
Definition synthesize (st : Store) (now : Instant) : result (list string) :=
  r ← update_hosts st now; Ok (fst (r : list string * string)).

(** ** Notions used in the statements *)

(** The options of the invocations used in the examples below. *)
Definition with_hour (h : string) : Options :=
  mkOptions None (Some h) None None None.
Definition with_domain (d : string) : Options :=
  mkOptions None None None (Some d) None.
Definition with_group (g : string) : Options :=
  mkOptions (Some g) None None None None.

(** The same invocation without its hour argument. *)
Definition without_hour (o : Options) : Options :=
  mkOptions (opt_group o) None (opt_day o) (opt_domain o) (opt_empty o).

(** A list that holds the wildcard holds nothing else. *)
Definition unmixed (l : list string) : Prop :=
  "*"%string ∈ l → l = ["*"%string].

(** What the three field steps of [add] do to the group they work on. *)
Definition hours_step (o : Options) (g : Group) : Group :=
  match opt_hour o with
  | Some h =>
      if hour_guard h then set_hours g (sorted_set (add_spec h (hours g))) else g
  | None => g
  end.

Definition days_step (o : Options) (g : Group) : Group :=
  match opt_day o with
  | Some d =>
      if day_guard d then set_days g (sorted_set (add_spec d (days g))) else g
  | None => g
  end.

Definition domain_step (o : Options) (g : Group) : Group :=
  match opt_domain o with
  | Some d =>
      if truthy (Some d) then set_domains g (domains g ++ [normalize_domain d]) else g
  | None => g
  end.

(** No group of the store mixes the wildcard with other entries. *)
Definition store_unmixed (st : Store) : Prop :=
  ∀ name g, groups st !! name = Some g →
    unmixed (hours g) ∧ unmixed (days g).

(** The hour specs of the specification's data model, written from its
    wording and not from the code.  A single hour: decimal digits only, with
    a value from 0 to 23. *)
Definition is_hour_number (s : string) : bool :=
  negb (bool_decide (s = EmptyString))
  && negb (search_class (λ c, negb (is_digit c)) s)
  && match int s with
     | Ok z => (0 <=? z) && (z <=? 23)
     | Raise _ => false
     end.

(** The wildcard, a single hour, or a range "start-end" of two hours. *)
Definition hour_spec_valid (s : string) : bool :=
  bool_decide (s = "*"%string)
  || is_hour_number s
  || (let '(a, sep, b) := partition "-" s in
      bool_decide (sep = "-"%string) && is_hour_number a && is_hour_number b).

(** One line of the body. *)
Definition host_line (d : string) : string :=
  hosts_file_blackhole +:+ String "009" d.

(** ** How a run can end *)

(** Exceptions that nothing in the script catches, besides those of [Py]. *)
Inductive exc : Set :=
| OfPy (e : Py.exn)
| KeyError      (* del d[k] for a missing key *)
| EOFError.     (* raw_input() at the end of the input *)

(** A call either returns, or ends the process through [sys.exit(code)] or
    through an uncaught exception; the state reached is kept in each case. *)
Inductive ended (A : Type) : Type :=
| Returned (a : A)
| Exited (code : Z) (a : A)
| Crashed (e : exc) (a : A).
Arguments Returned {A} a.
Arguments Exited {A} code a.
Arguments Crashed {A} e a.

(** ** remove *)

(** The part of the object's state that [remove] works on: [self.data],
    the last document handed to [_save_json] by the call, if any, and
    [self.options.update]. *)
Record World : Type := mkWorld {
  w_data : Store;
  w_saved : option Store;
  w_update : bool
}.

(** [re.match('(y|n|quit)', command)]: the answer starts with one of the
    three alternatives. *)
Definition answer_known (command : string) : bool :=
  match_literal "y" command || match_literal "n" command
  || match_literal "quit" command.

(** "Take appropriate action", then "Remove group and update JSON", with
    the save and the update flag that end the function. *)
Definition remove_group (name command : string) (w : World) (rest : list string)
  : ended (World * list string) :=
  if bool_decide (command = "quit"%string) then Exited 0 (w, rest)
  else if bool_decide (command = "n"%string) then Returned (w, rest)
  else
    match groups (w_data w) !! name with
    | None => Crashed KeyError (w, rest)
    | Some _ =>
        let st := mkStore (active (w_data w)) (delete name (groups (w_data w))) in
        Returned (mkWorld st (Some st) true, rest)
    end.

(** The three field removals: the value given is taken out of the list
    when it is in it, as it was typed. *)
Definition remove_value (v : option string) (l : list string) : list string :=
  match v with
  | Some x => if bool_decide (x ∈ l) then list_remove x l else l
  | None => l
  end.

Definition remove_fields (o : Options) (group : Group) : Group :=
  let group1 := set_days group (remove_value (opt_day o) (days group)) in
  let group2 := set_domains group1 (remove_value (opt_domain o) (domains group1)) in
  set_hours group2 (remove_value (opt_hour o) (hours group2)).

(** [remove], reading the answers to its prompt from [inputs]; it returns
    the inputs it did not read.  After an answer that is not recognized the
    function calls itself and then goes on with the old answer. *)
Fixpoint remove (o : Options) (inputs : list string) (w : World) {struct inputs}
  : ended (World * list string) :=
  match opt_group o with
  | None => Returned (w, inputs)
  | Some g =>
      if negb (truthy (Some g)) then Returned (w, inputs)
      else
        match groups (w_data w) !! lower g with
        | None => Returned (w, inputs)
        | Some group =>
            if negb (truthy (opt_day o) || truthy (opt_domain o)
                     || truthy (opt_hour o))
            then
              match inputs with
              | [] => Crashed EOFError (w, [])
              | answer :: rest =>
                  let command := lower answer in
                  if answer_known command
                  then remove_group (lower g) command w rest
                  else
                    match remove o rest w with
                    | Returned (w1, rest1) =>
                        remove_group (lower g) command w1 rest1
                    | stopped => stopped
                    end
              end
            else
              let st := mkStore (active (w_data w))
                          (<[lower g := remove_fields o group]> (groups (w_data w))) in
              Returned (mkWorld st (Some st) true, inputs)
        end
  end.

(** ** list *)

(** The "Current Status" line of [list] for a group: Running when
    [_is_live], which is evaluated first, and the active test both hold. *)
Definition list_running (st : Store) (name : string) (now : Instant) : result bool :=
  live ← is_live st name now;
  Ok ((live : bool) && bool_decide (name ∈ active st)).

(** ** The three hosts files *)

(** The files the script touches: their contents, and the paths that
    cannot be read or cannot be written (opening them raises IOError). *)
Record Files : Type := mkFiles {
  contents : gmap string string;
  unreadable : gset string;
  unwritable : gset string
}.

Definition hosts_file : string := "/etc/hosts".
Definition hosts_file_original : string := "/etc/hosts.original".
Definition hosts_file_template : string := "/etc/hosts.template".

(** [open(path, 'r').read()]; [None] stands for IOError. *)
Definition read_file (path : string) (fs : Files) : option string :=
  if bool_decide (path ∈ unreadable fs) then None else contents fs !! path.

(** [open(path, 'w').write(text)]; [None] stands for IOError. *)
Definition write_file (path text : string) (fs : Files) : option Files :=
  if bool_decide (path ∈ unwritable fs) then None
  else Some (mkFiles (<[path := text]> (contents fs)) (unreadable fs) (unwritable fs)).

(** [shutil.copy2(src, dst)] *)
Definition copy2 (src dst : string) (fs : Files) : option Files :=
  text ← read_file src fs; write_file dst text fs.

(** [os.path.exists(path)] *)
Definition exists_file (path : string) (fs : Files) : bool :=
  bool_decide (is_Some (contents fs !! path)).

Definition _init_hosts (fs : Files) : ended Files :=
  if negb (exists_file hosts_file fs) then Exited 1 fs
  else
    let original :=
      if negb (exists_file hosts_file_original fs)
      then copy2 hosts_file hosts_file_original fs
      else Some fs in
    match original with
    | None => Exited 1 fs
    | Some fs1 =>
        let template :=
          if negb (exists_file hosts_file_template fs1)
          then copy2 hosts_file_original hosts_file_template fs1
          else Some fs1 in
        match template with
        | None => Exited 1 fs1
        | Some fs2 => Returned fs2
        end
    end.

Definition disclaimer : string := "
##
# WARNING
#
# This file has been dynamically created by the internet.py script. Any changes
# made will be erased next time the file is generated. Add changes to the
# /etc/hosts.template file.
#
# The original hosts file can be found at /etc/hosts.original. Be sure to
# disable the internet.py script first!
##
".

(** The inner function [confirm] of [update_hosts], reading its answers
    from [inputs]: it returns, and the file is written, unless the answer is
    "quit" or "n". *)
Fixpoint confirm (inputs : list string) : ended (list string) :=
  match inputs with
  | [] => Crashed EOFError []
  | command :: rest =>
      let action (rest1 : list string) : ended (list string) :=
        if bool_decide (command = "quit"%string) || bool_decide (command = "n"%string)
        then Exited 0 rest1 else Returned rest1 in
      if answer_known command then action rest
      else
        match confirm rest with
        | Returned rest1 => action rest1
        | stopped => stopped
        end
  end.

(** [update_hosts] with its files: [want_confirm] is [self.options.confirm].
    The function never returns: it ends in [sys.exit]. *)
Definition update_hosts_run (want_confirm : bool) (st : Store) (now : Instant)
    (inputs : list string) (fs : Files) : ended Files :=
  match _init_hosts fs with
  | Returned fs1 =>
      match read_file hosts_file_template fs1 with
      | None => Exited 1 fs1
      | Some template =>
          match update_hosts st now with
          | Raise e => Crashed (OfPy e) fs1
          | Ok (_, body) =>
              let hosts_content := (template +:+ disclaimer) +:+ body in
              let asked :=
                if want_confirm then confirm inputs else Returned inputs in
              match asked with
              | Returned _ =>
                  match write_file hosts_file hosts_content fs1 with
                  | Some fs2 => Exited 0 fs2
                  | None => Exited 1 fs1
                  end
              | Exited code _ => Exited code fs1
              | Crashed e _ => Crashed e fs1
              end
          end
      end
  | stopped => stopped
  end.

(** A sequence of updates, each with the document and the instant of its
    run, as a cron job makes them; it stops at the first run that does not
    end in [sys.exit(0)]. *)
Fixpoint update_all (runs : list (Store * Instant)) (fs : Files) : ended Files :=
  match runs with
  | [] => Returned fs
  | (st, now) :: rest =>
      match update_hosts_run false st now [] fs with
      | Exited 0 fs1 => update_all rest fs1
      | stopped => stopped
      end
  end.

(** ** The constructor: which action runs *)

(** [list]: the groups it shows (all of them, or the one named by the
    group option, as typed, when it exists) with their status line.  The
    order in which a Python 2 dict yields its items is not modelled; the
    groups come in the order of [map_to_list]. *)
Fixpoint list_loop (st : Store) (now : Instant) (names : list string)
  : result (list (string * bool)) :=
  match names with
  | [] => Ok []
  | name :: rest =>
      running ← list_running st name now;
      shown ← list_loop st now rest;
      Ok ((name, (running : bool)) :: (shown : list (string * bool)))
  end.

Definition list_groups (o : Options) (st : Store) (now : Instant)
  : result (list (string * bool)) :=
  match opt_group o with
  | None => list_loop st now (map_to_list (groups st)).*1
  | Some g =>
      if bool_decide (is_Some (groups st !! g)) then list_loop st now [g]
      else Ok []
  end.

(** The flags of [self.options] that the constructor tests;
    [f_no_args] is [len(sys.argv) == 1].  [--empty] is [opt_empty]. *)
Record Flags : Type := mkFlags {
  f_remove : bool;
  f_add : bool;
  f_activate : bool;
  f_deactivate : bool;
  f_list : bool;
  f_update : bool;
  f_confirm : bool;
  f_cron : bool;
  f_no_args : bool
}.

(** [empty] as the constructor sees it: the save and the update flag are
    reached only when the group option names an existing group. *)
Definition empty_run (o : Options) (w : World) : World :=
  match opt_group o with
  | Some g =>
      if truthy (Some g) && bool_decide (is_Some (groups (w_data w) !! lower g))
      then let st := empty o (w_data w) in mkWorld st (Some st) true
      else w
  | None => w
  end.

(** The first conflict group of [__init__]: at most one of the five
    actions runs, in this order of precedence. *)
Definition run_action (f : Flags) (o : Options) (inputs : list string) (w : World)
  : ended (World * list string) :=
  if f_remove f then remove o inputs w
  else if bool_decide (is_Some (opt_empty o)) then Returned (empty_run o w, inputs)
  else if f_add f then
    match add o (w_data w) with
    | Ok st => Returned (mkWorld st (Some st) true, inputs)
    | Raise e => Crashed (OfPy e) (w, inputs)
    end
  else if f_activate f then
    let st := activate o (w_data w) in
    Returned (mkWorld st (Some st) (w_update w), inputs)
  else if f_deactivate f then
    let st := deactivate o (w_data w) in
    Returned (mkWorld st (Some st) (w_update w), inputs)
  else Returned (w, inputs).

(** [Internet.__init__] after the document was loaded: the cron settings,
    one action, [list], and [update_hosts] when the update flag is set or
    no argument was given.  The clock is read once for the whole run. *)
Definition main (f : Flags) (o : Options) (now : Instant) (inputs : list string)
    (st : Store) (fs : Files) : ended (World * Files) :=
  let want_confirm := if f_cron f then false else f_confirm f in
  let w0 := mkWorld st None (if f_cron f then true else f_update f) in
  match run_action f o inputs w0 with
  | Returned (w, rest) =>
      match (if f_list f then list_groups o (w_data w) now else Ok []) with
      | Raise e => Crashed (OfPy e) (w, fs)
      | Ok _ =>
          if w_update w || f_no_args f then
            match update_hosts_run want_confirm (w_data w) now rest fs with
            | Returned fs' => Returned (w, fs')
            | Exited code fs' => Exited code (w, fs')
            | Crashed e fs' => Crashed e (w, fs')
            end
          else Returned (w, fs)
      end
  | Exited code (w, _) => Exited code (w, fs)
  | Crashed e (w, _) => Crashed e (w, fs)
  end.

(** The state a run ended in, however it ended. *)
Definition end_state {A} (r : ended A) : A :=
  match r with
  | Returned a => a
  | Exited _ a => a
  | Crashed _ a => a
  end.

(** The options of [--remove --group g] and of [--remove --group g
    --domain d]. *)
Definition with_group_domain (g d : string) : Options :=
  mkOptions (Some g) None None (Some d) None.

(** The answers from the first one that [re.match('(y|n|quit)', ...)]
    accepts. *)
Fixpoint first_known (inputs : list string) : list string :=
  match inputs with
  | [] => []
  | command :: rest =>
      if answer_known command then inputs else first_known rest
  end.

(** The files of a machine on which the script has not run: only the
    hosts file of the three is there, and nothing is protected. *)
Definition fresh_files (fs : Files) (h : string) : Prop :=
  contents fs !! hosts_file = Some h
  ∧ contents fs !! hosts_file_original = None
  ∧ contents fs !! hosts_file_template = None
  ∧ unreadable fs = ∅ ∧ unwritable fs = ∅.

(** The files once the script has run on such a machine: the original and
    the template hold the hosts file as it was found. *)
Definition bootstrapped (fs : Files) (h : string) : Prop :=
  is_Some (contents fs !! hosts_file)
  ∧ contents fs !! hosts_file_original = Some h
  ∧ contents fs !! hosts_file_template = Some h
  ∧ unreadable fs = ∅ ∧ unwritable fs = ∅.

(** ** Further invariants of the store *)

(** Every day entry of every group is one that [add] accepts. *)
Definition store_days_known (st : Store) : Prop :=
  ∀ name g, groups st !! name = Some g → ∀ d, d ∈ days g → d ∈ days_map.

(** No stored domain holds an upper-case letter. *)
Definition store_lowercase (st : Store) : Prop :=
  ∀ name g, groups st !! name = Some g →
    ∀ d, d ∈ domains g → search_class is_upper d = false.

(** ** Facts about the primitives *)

Section Primitives.

Lemma bind_Ok {A B} (m : result A) (k : A → result B) (b : B) :
  (m ≫= k) = Ok b ↔ ∃ a, m = Ok a ∧ k a = Ok b.
Proof.
  destruct m as [a|e]; simpl; split.
  - intros H. by exists a.
  - by intros (a' & [= <-] & H).
  - intros H. discriminate H.
  - by intros (a' & [=] & _).
Qed.

Lemma search_class_app p s t :
  search_class p (s +:+ t) = search_class p s || search_class p t.
Proof.
  induction s as [|c s IH]; simpl; [done|].
  rewrite IH. by rewrite orb_assoc.
Qed.

Lemma partition_first sep s t :
  search_class (λ c, bool_decide (c = sep)) s = false →
  partition sep (s +:+ String sep t) = (s, String sep EmptyString, t).
Proof.
  induction s as [|c s IH]; simpl; intros H.
  - by rewrite bool_decide_true.
  - apply orb_false_iff in H as [Hc Hs].
    rewrite Hc. by rewrite (IH Hs).
Qed.

Lemma has_dash_range sa sb : has_dash (sa +:+ String "-" sb) = true.
Proof.
  unfold has_dash. rewrite search_class_app. simpl.
  by rewrite orb_true_r.
Qed.

Lemma list_remove_count x y l :
  count_occ string_dec (list_remove x l) y =
  if bool_decide (x ∈ l) && bool_decide (y = x)
  then pred (count_occ string_dec l y)
  else count_occ string_dec l y.
Proof.
  induction l as [|z l IH]; simpl; [done|].
  destruct (bool_decide_reflect (z = x)) as [->|Hzx].
  - rewrite (bool_decide_true (x ∈ x :: l)) by left. simpl.
    destruct (string_dec x y) as [->|Hxy].
    + by rewrite bool_decide_true.
    + rewrite bool_decide_false; [done|]. by intros ->.
  - simpl. rewrite IH.
    destruct (bool_decide_reflect (x ∈ l)) as [Hin|Hin].
    + rewrite (bool_decide_true (x ∈ z :: l)) by (by right). simpl.
      destruct (bool_decide_reflect (y = x)) as [->|Hyx]; [|done].
      destruct (string_dec z x) as [?|_]; [done|done].
    + rewrite (bool_decide_false (x ∈ z :: l)); [done|].
      intros [?|?]%elem_of_cons; [|done]. by subst.
Qed.

Lemma count_occ_elem_of (x : string) l :
  (0 < count_occ string_dec l x)%nat ↔ x ∈ l.
Proof.
  rewrite list_elem_of_In. split; intros H.
  - by apply (count_occ_In string_dec).
  - by apply (count_occ_In string_dec) in H.
Qed.

End Primitives.

(** ** The schedule test *)

Section Schedule.

Lemma hour_spec_live_single h s :
  has_dash s = false → hour_spec_live h s = Ok false.
Proof. intros H. unfold hour_spec_live. by rewrite H. Qed.

Lemma hour_spec_live_range h sa sb a b :
  has_dash sa = false → int sa = Ok a → int sb = Ok b →
  hour_spec_live h (sa +:+ String "-" sb) = Ok ((a <=? h) && (h <? b)).
Proof.
  intros Hsa Ha Hb. unfold hour_spec_live.
  rewrite has_dash_range, (partition_first _ _ _ Hsa), Ha. simpl.
  destruct (a <=? h); simpl; [by rewrite Hb|done].
Qed.

Lemma range_not_wildcard sa sb : sa +:+ String "-" sb ≠ "*"%string.
Proof.
  intros H. pose proof (has_dash_range sa sb) as Hd.
  rewrite H in Hd. discriminate Hd.
Qed.

(** The flag returned by the loop is true exactly when it was true at
    the start or some entry set it. *)
Lemma hours_loop_flag h l acc r :
  hours_loop h l acc = Ok r →
  r = true ↔ acc = true ∨ ∃ s, s ∈ l ∧ hour_spec_live h s = Ok true.
Proof.
  revert acc. induction l as [|s l IH]; simpl; intros acc H.
  - injection H as <-. split; [by left|].
    intros [?|(s & Hs & _)]; [done|]. by apply elem_of_nil in Hs.
  - apply bind_Ok in H as (m & Hm & H). apply IH in H. rewrite H.
    split.
    + intros [Hacc|(s' & Hin & Hs')].
      * destruct m; [|by left].
        right. exists s. split; [left|done].
      * right. exists s'. split; [by right|done].
    + intros [->|(s' & Hin & Hs')].
      * left. by destruct m.
      * apply elem_of_cons in Hin as [->|Hin].
        -- left. rewrite Hs' in Hm. by injection Hm as <-.
        -- right. by exists s'.
Qed.

(** The loop returns when every entry can be evaluated. *)
Lemma hours_loop_total h l acc :
  (∀ s, s ∈ l → ∃ m, hour_spec_live h s = Ok m) →
  ∃ r, hours_loop h l acc = Ok r.
Proof.
  revert acc. induction l as [|s l IH]; simpl; intros acc H.
  - by exists acc.
  - destruct (H s) as [m Hm]; [left|]. rewrite Hm. simpl.
    apply IH. intros s' Hs'. apply H. by right.
Qed.

Lemma is_live_missing st name now :
  groups st !! name = None → is_live st name now = Ok false.
Proof. intros H. unfold is_live. by rewrite H. Qed.

Lemma is_live_true st name now :
  is_live st name now = Ok true ↔
  ∃ g, groups st !! name = Some g ∧ in_hours g now = Ok true
       ∧ in_day g now = true.
Proof.
  unfold is_live. destruct (groups st !! name) as [g|]; split.
  - intros (h & Hh & H)%bind_Ok. injection H as H.
    apply andb_true_iff in H as [-> Hd]. by exists g.
  - intros (g' & [= <-] & Hh & Hd). rewrite Hh. simpl. by rewrite Hd.
  - intros H. discriminate H.
  - by intros (g' & [=] & _).
Qed.

End Schedule.

(** C1 (the claim does not hold of the code).  A group whose hours list is
    the single-hour entry "8", as [add --hour 8] stores it, is not live at
    hour 8: [_is_live] compares the integer [now.hour] with the string
    entry, and an int never equals a str. *)
Theorem single_hour_entry_is_not_matched :
  ∃ st g,
    add (with_hour "8") initial_store = Ok st
    ∧ groups st !! "default"%string = Some g
    ∧ hours g = ["8"%string]
    ∧ in_hours g (mkInstant 8 0) = Ok false
    ∧ is_live st "default" (mkInstant 8 0) = Ok false.
Proof.
  eexists _, _. split; [by vm_compute|]. split; [by vm_compute|].
  split; [done|]. split; by vm_compute.
Qed.

(** C2.  A range entry "start-end" whose two parts read as the integers
    [a] and [b] sets the hour check exactly when [a <= hour < b], the upper
    bound excluded: for a group holding only this entry the hour check of
    [_is_live] is true iff [a <= hour < b]; in a larger hours list it is
    true inside the range whenever the other entries can be evaluated, and
    outside the range only through the wildcard or another entry. *)
Theorem range_entry_is_half_open (sa sb : string) (a b : Z) (g : Group) (now : Instant) :
  has_dash sa = false → int sa = Ok a → int sb = Ok b →
  0 ≤ a ≤ 23 → 0 ≤ b ≤ 23 →
  let spec := sa +:+ String "-" sb in
  hour_spec_live (hour now) spec = Ok ((a <=? hour now) && (hour now <? b))
  ∧ (hours g = [spec] →
       (in_hours g now = Ok true ↔ a ≤ hour now < b)
       ∧ (in_hours g now = Ok false ↔ ¬ (a ≤ hour now < b)))
  ∧ (spec ∈ hours g →
       (∀ s, s ∈ hours g → ∃ m, hour_spec_live (hour now) s = Ok m) →
       a ≤ hour now < b → in_hours g now = Ok true)
  ∧ (spec ∈ hours g → in_hours g now = Ok true → ¬ (a ≤ hour now < b) →
       "*"%string ∈ hours g
       ∨ ∃ s, s ∈ hours g ∧ s ≠ spec ∧ hour_spec_live (hour now) s = Ok true).
Proof.
  intros Hsa Ha Hb _ _ spec.
  pose proof (hour_spec_live_range (hour now) sa sb a b Hsa Ha Hb) as Hspec.
  fold spec in Hspec.
  assert (Hiff : (a <=? hour now) && (hour now <? b) = true ↔ a ≤ hour now < b).
  { rewrite andb_true_iff, Z.leb_le, Z.ltb_lt. done. }
  split; [done|]. split; [|split].
  - intros Hg. unfold in_hours. rewrite Hg.
    rewrite bool_decide_false.
    2:{ intros Hin%list_elem_of_singleton. by apply (range_not_wildcard sa sb). }
    simpl. rewrite Hspec. simpl.
    destruct ((a <=? hour now) && (hour now <? b)).
    + destruct Hiff as [Hr _]. specialize (Hr eq_refl).
      split; [done|]. split; [done|]. intros Hn. by destruct Hn.
    + assert (¬ (a ≤ hour now < b)) as Hn.
      { intros Hr. apply Hiff in Hr. discriminate Hr. }
      split; [|done]. split; [done|]. intros Hr. by destruct Hn.
  - intros Hin Hall Hr. unfold in_hours. case_bool_decide; [done|].
    destruct (hours_loop_total (hour now) (hours g) false Hall) as [r Hl].
    rewrite Hl. f_equal. apply (hours_loop_flag _ _ _ _ Hl).
    right. exists spec. split; [done|]. rewrite Hspec. f_equal. by apply Hiff.
  - intros Hin Hl Hn. unfold in_hours in Hl. case_bool_decide; [by left|].
    right. apply hours_loop_flag in Hl. destruct Hl as [Hl _].
    destruct (Hl eq_refl) as [?|(s & Hs & Hm)]; [done|].
    exists s. split; [done|]. split; [|done].
    intros ->. rewrite Hspec in Hm. injection Hm as Hm.
    apply Hiff in Hm. by destruct Hn.
Qed.

(** The entry "9-17" at hours 9 and 16 (matched) and at 8 and 17 (not
    matched). *)
Lemma range_entry_is_half_open_9_17 :
  let g := mkGroup ["9-17"%string] [] ["*"%string] in
  in_hours g (mkInstant 9 0) = Ok true
  ∧ in_hours g (mkInstant 16 0) = Ok true
  ∧ in_hours g (mkInstant 8 0) = Ok false
  ∧ in_hours g (mkInstant 17 0) = Ok false.
Proof.
  intros g.
  assert (T : ∀ h,
    (in_hours g (mkInstant h 0) = Ok true ↔ 9 ≤ h < 17)
    ∧ (in_hours g (mkInstant h 0) = Ok false ↔ ¬ (9 ≤ h < 17))).
  { intros h.
    apply (range_entry_is_half_open "9" "17" 9 17 g (mkInstant h 0));
      [reflexivity|reflexivity|reflexivity|lia|lia|reflexivity]. }
  split; [|split; [|split]].
  - apply (T 9). lia.
  - apply (T 16). lia.
  - apply (T 8). lia.
  - apply (T 17). lia.
Defined.

(** C9.  [empty] with [--empty hours] on an existing group leaves it with
    the empty hours list, not the wildcard, and the other two fields as they
    were; from then on the hour check fails and [_is_live] is false for the
    group at every instant. *)
Theorem empty_hours_is_never_live (st : Store) (o : Options) (name : string) (grp : Group) :
  opt_group o = Some name → truthy (Some name) = true →
  opt_empty o = Some FHours →
  groups st !! lower name = Some grp →
  ∃ grp',
    groups (empty o st) !! lower name = Some grp'
    ∧ hours grp' = [] ∧ days grp' = days grp ∧ domains grp' = domains grp
    ∧ active (empty o st) = active st
    ∧ ∀ now, in_hours grp' now = Ok false
             ∧ is_live (empty o st) (lower name) now = Ok false.
Proof.
  intros Hg Ht He Hl. exists (set_hours grp []).
  assert (Hst : empty o st =
                mkStore (active st) (<[lower name := set_hours grp []]> (groups st))).
  { unfold empty. by rewrite Hg, Ht, Hl, He. }
  rewrite Hst. simpl. rewrite lookup_insert_eq.
  repeat split; try done.
  unfold is_live. simpl. by rewrite lookup_insert_eq.
Qed.

(** The scenario group "work", emptied and tested on a Monday at 10. *)
Lemma empty_hours_is_never_live_work :
  let work := mkGroup ["9-17"] ["example.com"; "foo.com"] ["Monday"; "Tuesday"] in
  let st := mkStore ["work"] {[ "work" := work ]} in
  let o := mkOptions (Some "work") None None None (Some FHours) in
  is_live st "work" (mkInstant 10 0) = Ok true
  ∧ is_live (empty o st) "work" (mkInstant 10 0) = Ok false.
Proof.
  intros work st o. split; [reflexivity|].
  destruct (empty_hours_is_never_live st o "work" work
              eq_refl eq_refl eq_refl eq_refl) as (g' & _ & _ & _ & _ & _ & H).
  apply (H (mkInstant 10 0)).
Defined.

(** ** add *)

Section Add.

Lemma elem_of_sorted_set x l : x ∈ sorted_set l ↔ x ∈ l.
Proof.
  unfold sorted_set. rewrite merge_sort_Permutation.
  by rewrite elem_of_elements, elem_of_list_to_set.
Qed.

Lemma NoDup_sorted_set l : NoDup (sorted_set l).
Proof.
  unfold sorted_set. rewrite merge_sort_Permutation. apply NoDup_elements.
Qed.

Lemma Sorted_sorted_set l : StronglySorted String.le (sorted_set l).
Proof. apply StronglySorted_merge_sort; apply _. Qed.

Lemma sorted_set_singleton x : sorted_set [x] = [x].
Proof.
  unfold sorted_set. simpl. rewrite (right_id_L ∅ (∪)).
  by rewrite elements_singleton.
Qed.

Lemma add_spec_wildcard l : add_spec "*" l = ["*"%string].
Proof. done. Qed.

Lemma add_spec_replaces s : s ≠ "*"%string → add_spec s ["*"%string] = [s].
Proof.
  intros H. unfold add_spec. rewrite bool_decide_false by done.
  by rewrite bool_decide_true by left.
Qed.

Lemma unmixed_add_spec s l : unmixed (sorted_set (add_spec s l)).
Proof.
  unfold add_spec. case_bool_decide as Hs.
  - intros _. apply sorted_set_singleton.
  - case_bool_decide as Hl.
    + rewrite sorted_set_singleton.
      intros Hin%list_elem_of_singleton. by destruct Hs.
    + intros Hin. apply (proj1 (elem_of_sorted_set _ _)) in Hin.
      apply elem_of_app in Hin as [Hin|Hin].
      * by destruct Hl.
      * apply list_elem_of_singleton in Hin. by destruct Hs.
Qed.

Lemma add_hours_Ok o name gs g :
  gs !! name = Some g →
  add_hours o name gs = Ok (<[name := hours_step o g]> gs).
Proof.
  intros H. unfold add_hours, hours_step, get_group.
  destruct (opt_hour o) as [h|]; [destruct (hour_guard h)|].
  - by rewrite H.
  - by rewrite insert_id.
  - by rewrite insert_id.
Qed.

Lemma add_days_Ok o name gs g :
  gs !! name = Some g →
  add_days o name gs = Ok (<[name := days_step o g]> gs).
Proof.
  intros H. unfold add_days, days_step, get_group.
  destruct (opt_day o) as [d|]; [destruct (day_guard d)|].
  - by rewrite H.
  - by rewrite insert_id.
  - by rewrite insert_id.
Qed.

Lemma add_domain_Ok o name gs g :
  gs !! name = Some g →
  add_domain o name gs = Ok (<[name := domain_step o g]> gs).
Proof.
  intros H. unfold add_domain, domain_step, get_group.
  destruct (opt_domain o) as [d|]; [destruct (truthy (Some d))|].
  - by rewrite H.
  - by rewrite insert_id.
  - by rewrite insert_id.
Qed.

(** The group that [add] works on, once it exists, goes through the
    three steps; the name is appended to [active]. *)
Lemma add_Ok o st g0 :
  add_create o (groups st) !! add_groupname o = Some g0 →
  add o st =
  Ok (mkStore (active st ++ [add_groupname o])
        (<[add_groupname o := domain_step o (days_step o (hours_step o g0))]>
           (add_create o (groups st)))).
Proof.
  intros H. unfold add.
  rewrite (add_hours_Ok _ _ _ _ H). simpl.
  rewrite (add_days_Ok _ _ _ (hours_step o g0)) by apply lookup_insert_eq. simpl.
  rewrite (add_domain_Ok _ _ _ (days_step o (hours_step o g0)))
    by apply lookup_insert_eq. simpl.
  by rewrite !insert_insert_eq.
Qed.

(** With a group option the group exists after "create group if needed". *)
Lemma add_create_named o :
  truthy (opt_group o) = true →
  ∀ gs, is_Some (add_create o gs !! add_groupname o).
Proof.
  intros Ht gs. unfold add_create. rewrite Ht.
  destruct (gs !! add_groupname o) as [g|] eqn:E.
  - by rewrite E.
  - rewrite lookup_insert_eq. done.
Qed.

Lemma add_create_lookup o gs name :
  add_create o gs !! name =
  match gs !! name with
  | Some g => Some g
  | None =>
      if truthy (opt_group o) && bool_decide (name = add_groupname o)
      then Some new_group else None
  end.
Proof.
  unfold add_create. destruct (truthy (opt_group o)); simpl.
  - destruct (gs !! add_groupname o) as [g|] eqn:E.
    + destruct (gs !! name) eqn:E'; [done|].
      case_bool_decide; [|done]. subst. congruence.
    + rewrite lookup_insert. case_decide as Hn.
      * subst. rewrite E. by rewrite bool_decide_true.
      * rewrite bool_decide_false by done. by destruct (gs !! name).
  - by destruct (gs !! name).
Qed.

End Add.

Section WildcardInvariant.

Lemma hours_domain_step o g : hours (domain_step o g) = hours g.
Proof.
  unfold domain_step.
  destruct (opt_domain o) as [d|]; [destruct (truthy (Some d))|]; done.
Qed.

Lemma days_domain_step o g : days (domain_step o g) = days g.
Proof.
  unfold domain_step.
  destruct (opt_domain o) as [d|]; [destruct (truthy (Some d))|]; done.
Qed.

Lemma hours_days_step o g : hours (days_step o g) = hours g.
Proof.
  unfold days_step.
  destruct (opt_day o) as [d|]; [destruct (day_guard d)|]; done.
Qed.

Lemma days_hours_step o g : days (hours_step o g) = days g.
Proof.
  unfold hours_step.
  destruct (opt_hour o) as [d|]; [destruct (hour_guard d)|]; done.
Qed.

Lemma unmixed_hours_step o g : unmixed (hours g) → unmixed (hours (hours_step o g)).
Proof.
  intros H. unfold hours_step.
  destruct (opt_hour o) as [h|]; [destruct (hour_guard h)|]; try done.
  apply unmixed_add_spec.
Qed.

Lemma unmixed_days_step o g : unmixed (days g) → unmixed (days (days_step o g)).
Proof.
  intros H. unfold days_step.
  destruct (opt_day o) as [d|]; [destruct (day_guard d)|]; try done.
  apply unmixed_add_spec.
Qed.

Lemma unmixed_new_group : unmixed (hours new_group) ∧ unmixed (days new_group).
Proof. split; by intros _. Qed.

Lemma store_unmixed_initial : store_unmixed initial_store.
Proof.
  intros name g H. simpl in H.
  apply lookup_singleton_Some in H as [_ <-]. apply unmixed_new_group.
Qed.

(** The two ways in which [add] returns: without touching a group (no
    field step ran), or with the steps applied to the group it works on. *)
Lemma add_inv o st st' :
  add o st = Ok st' →
  active st' = active st ++ [add_groupname o]
  ∧ (groups st' = add_create o (groups st)
     ∨ ∃ g0, add_create o (groups st) !! add_groupname o = Some g0
             ∧ groups st' =
               <[add_groupname o := domain_step o (days_step o (hours_step o g0))]>
                 (add_create o (groups st))).
Proof.
  destruct (add_create o (groups st) !! add_groupname o) as [g0|] eqn:E.
  - rewrite (add_Ok _ _ _ E). intros [= <-]. split; [done|]. right. by exists g0.
  - unfold add, add_hours, add_days, add_domain, get_group.
    destruct (opt_hour o) as [h|]; [destruct (hour_guard h)|];
      (destruct (opt_day o) as [d|]; [destruct (day_guard d)|]);
      (destruct (opt_domain o) as [m|]; [destruct (truthy (Some m))|]);
      repeat (progress (simpl; rewrite ?E)); try discriminate;
      intros [= <-]; split; done || by left.
Qed.

Lemma add_create_unmixed o gs :
  (∀ name g, gs !! name = Some g → unmixed (hours g) ∧ unmixed (days g)) →
  ∀ name g, add_create o gs !! name = Some g →
    unmixed (hours g) ∧ unmixed (days g).
Proof.
  intros H name g. rewrite add_create_lookup.
  destruct (gs !! name) as [g'|] eqn:E.
  - intros [= <-]. by apply (H name).
  - destruct (_ && _); [|done]. intros [= <-]. apply unmixed_new_group.
Qed.

Lemma add_unmixed o st st' :
  store_unmixed st → add o st = Ok st' → store_unmixed st'.
Proof.
  intros Hst Hadd. apply add_inv in Hadd as [_ [Hg|(g0 & Hg0 & Hg)]];
    intros name g; rewrite Hg.
  - by apply add_create_unmixed.
  - rewrite lookup_insert. case_decide as Hn.
    + intros [= <-].
      destruct (add_create_unmixed o _ Hst _ _ Hg0) as [Hh Hd].
      rewrite hours_domain_step, hours_days_step, days_domain_step. split.
      * by apply unmixed_hours_step.
      * apply unmixed_days_step. by rewrite days_hours_step.
    + by apply add_create_unmixed.
Qed.

Lemma add_all_unmixed os st st' :
  store_unmixed st → add_all os st = Ok st' → store_unmixed st'.
Proof.
  revert st. induction os as [|o os IH]; simpl; intros st Hst H.
  - by injection H as <-.
  - apply bind_Ok in H as (st1 & H1 & H). apply (IH st1); [|done].
    by apply (add_unmixed o st).
Qed.

End WildcardInvariant.

(** C3.  Whenever the group that [add] works on exists (it always does when
    a group option is given) the call returns, and for the hours as for the
    days of that group: adding "*" leaves exactly ["*"]; adding any other
    accepted entry to a list that is exactly ["*"] leaves exactly that
    entry; the field touched never mixes the wildcard with other entries;
    and a store in which no group mixes them stays so under [add] and under
    any sequence of [add] calls, the initial store being such a store. *)
Theorem wildcard_collapse (o : Options) (st : Store) (g0 : Group) :
  add_create o (groups st) !! add_groupname o = Some g0 →
  ∃ st' g',
    add o st = Ok st'
    ∧ groups st' !! add_groupname o = Some g'
    ∧ (opt_hour o = Some "*"%string → hours g' = ["*"%string])
    ∧ (opt_day o = Some "*"%string → days g' = ["*"%string])
    ∧ (∀ s, opt_hour o = Some s → hour_guard s = true → s ≠ "*"%string →
            hours g0 = ["*"%string] → hours g' = [s])
    ∧ (∀ s, opt_day o = Some s → day_guard s = true → s ≠ "*"%string →
            days g0 = ["*"%string] → days g' = [s])
    ∧ (∀ s, opt_hour o = Some s → hour_guard s = true → unmixed (hours g'))
    ∧ (∀ s, opt_day o = Some s → day_guard s = true → unmixed (days g'))
    ∧ (store_unmixed st → store_unmixed st')
    ∧ store_unmixed initial_store
    ∧ (∀ os st1 st2, store_unmixed st1 → add_all os st1 = Ok st2 →
                     store_unmixed st2).
Proof.
  intros H0. eexists _, _. split; [by apply add_Ok|].
  simpl. split; [by rewrite lookup_insert_eq|].
  rewrite hours_domain_step, hours_days_step, days_domain_step.
  split; [intros Hh; unfold hours_step; by rewrite Hh|].
  split; [intros Hd; unfold days_step; by rewrite Hd|].
  split.
  { intros s Hh Hg Hs Hw. unfold hours_step. rewrite Hh, Hg. simpl.
    rewrite Hw, add_spec_replaces by done. apply sorted_set_singleton. }
  split.
  { intros s Hd Hg Hs Hw. unfold days_step. rewrite Hd, Hg. simpl.
    rewrite days_hours_step, Hw, add_spec_replaces by done.
    apply sorted_set_singleton. }
  split.
  { intros s Hh Hg. unfold hours_step. rewrite Hh, Hg.
    apply unmixed_add_spec. }
  split.
  { intros s Hd Hg. unfold days_step. rewrite Hd, Hg.
    apply unmixed_add_spec. }
  split; [|split].
  - intros Hst. apply (add_unmixed o st); [done|by apply add_Ok].
  - apply store_unmixed_initial.
  - apply add_all_unmixed.
Qed.

(** On the initial store: "9-17" replaces the wildcard hours of "default",
    and "*" brings them back. *)
Lemma wildcard_collapse_default :
  ∃ st1 st2 g1 g2,
    add (with_hour "9-17") initial_store = Ok st1
    ∧ groups st1 !! "default"%string = Some g1 ∧ hours g1 = ["9-17"%string]
    ∧ add (with_hour "*") st1 = Ok st2
    ∧ groups st2 !! "default"%string = Some g2 ∧ hours g2 = ["*"%string].
Proof.
  destruct (wildcard_collapse (with_hour "9-17") initial_store new_group eq_refl)
    as (st1 & g1 & Ha1 & Hg1 & _ & _ & Hr & _).
  destruct (wildcard_collapse (with_hour "*") st1 g1 Hg1)
    as (st2 & g2 & Ha2 & Hg2 & Hw & _).
  exists st1, st2, g1, g2.
  split; [exact Ha1|]. split; [exact Hg1|].
  split; [apply (Hr "9-17"%string); [reflexivity|reflexivity|discriminate|reflexivity]|].
  split; [exact Ha2|]. split; [exact Hg2|]. apply Hw. reflexivity.
Defined.

(** ** Hour specs as the data model describes them *)

Section HourSpecs.

Lemma search_class_mono (p q : ascii → bool) s :
  (∀ c, p c = true → q c = true) →
  search_class p s = true → search_class q s = true.
Proof.
  intros Hpq. induction s as [|c s IH]; simpl; [done|].
  intros [Hc|Hs]%orb_true_iff; apply orb_true_iff; [left|right]; auto.
Qed.

Lemma partition_sep sep s :
  (partition sep s).1.2 ≠ EmptyString →
  search_class (λ c, bool_decide (c = sep)) s = true.
Proof.
  induction s as [|c s IH]; simpl; [done|].
  case_bool_decide as Hc; [done|]. simpl.
  destruct (partition sep s) as [[h m] t]. simpl in *. exact IH.
Qed.

Lemma all_digits_search s :
  s ≠ EmptyString → search_class (λ c, negb (is_digit c)) s = false →
  search_class is_digit s = true.
Proof.
  destruct s as [|c s]; [done|]. simpl. intros _ [Hc _]%orb_false_iff.
  apply negb_false_iff in Hc. by rewrite Hc.
Qed.

(** Every spec of the data model passes the test that [add] makes. *)
Lemma hour_spec_valid_guard s :
  hour_spec_valid s = true → hour_guard s = true.
Proof.
  unfold hour_spec_valid, hour_guard.
  intros [[Hw|Hn]%orb_true_iff|Hr]%orb_true_iff.
  - apply bool_decide_eq_true in Hw as ->. done.
  - unfold is_hour_number in Hn.
    apply andb_true_iff in Hn as [[Hne Hd]%andb_true_iff _].
    apply negb_true_iff in Hne, Hd. apply bool_decide_eq_false in Hne.
    apply andb_true_iff. split.
    + simpl. by rewrite bool_decide_false.
    + apply (search_class_mono is_digit); [|by apply all_digits_search].
      intros c Hc. unfold hour_class. by rewrite Hc.
  - pose proof (partition_sep "-" s) as Hp.
    destruct (partition "-" s) as [[a sep] b]. simpl in Hp.
    apply andb_true_iff in Hr as [[Hsep _]%andb_true_iff _].
    apply bool_decide_eq_true in Hsep as ->.
    specialize (Hp ltac:(done)).
    apply andb_true_iff. split.
    + simpl. rewrite bool_decide_false; [done|]. by intros ->.
    + apply (search_class_mono (λ c, bool_decide (c = "-"%char))); [|done].
      intros c Hc. unfold hour_class. rewrite Hc. by rewrite orb_true_r.
Qed.

End HourSpecs.

(** C6 (the claim does not hold of the code).  [add --domain
    HTTP://Example.com] stores the normalized "example.com", but stores it
    again when it is already there: after two such calls the domains list
    of "default" holds it twice. *)
Theorem add_domain_appends_duplicates :
  normalize_domain "HTTP://Example.com" = "example.com"%string
  ∧ ∃ st1 st2 g1 g2,
      add (with_domain "HTTP://Example.com") initial_store = Ok st1
      ∧ groups st1 !! "default"%string = Some g1
      ∧ domains g1 = ["example.com"%string]
      ∧ add (with_domain "HTTP://Example.com") st1 = Ok st2
      ∧ groups st2 !! "default"%string = Some g2
      ∧ domains g2 = ["example.com"; "example.com"]%string.
Proof.
  split; [by vm_compute|].
  eexists _, _, _, _.
  split; [by vm_compute|]. split; [by vm_compute|]. split; [done|].
  split; [by vm_compute|]. split; [by vm_compute|]. done.
Qed.

(** C7 (the claim does not hold of the code).  [add] appends the group name
    to [active] whether or not it is there: one call on the initial store,
    where "default" is active, leaves it in [active] twice, whereas
    [activate] leaves the store as it is. *)
Theorem add_appends_active_name_again :
  active initial_store = ["default"%string]
  ∧ activate (with_group "default") initial_store = initial_store
  ∧ ∃ st', add no_options initial_store = Ok st'
           ∧ active st' = ["default"; "default"]%string
           ∧ count_occ string_dec (active st') "default"%string = 2%nat.
Proof.
  split; [done|]. split; [by vm_compute|].
  eexists. split; [by vm_compute|]. split; by vm_compute.
Qed.

(** C8 as the claim states it fails, in two ways.  For the hour "abc",
    which is no hour spec, [add --group work --hour abc] on the initial
    store raises nothing and returns a store that differs from the one it
    was given, with the group "work" created and activated.  And the hour
    "25", which is no hour spec either, passes the test of [add] and is
    stored. *)
Lemma rejected_hour_add_still_mutates :
  hour_spec_valid "abc" = false
  ∧ (∃ st', add (mkOptions (Some "work") (Some "abc") None None None)%string
              initial_store = Ok st'
            ∧ groups initial_store !! "work"%string = None
            ∧ groups st' !! "work"%string = Some new_group
            ∧ active st' = ["default"; "work"]%string)
  ∧ hour_spec_valid "25" = false
  ∧ ∃ st2 g2, add (with_hour "25") initial_store = Ok st2
              ∧ groups st2 !! "default"%string = Some g2
              ∧ hours g2 = ["25"%string].
Proof.
  split; [by vm_compute|]. split.
  { eexists. split; [by vm_compute|]. split; [by vm_compute|].
    split; by vm_compute. }
  split; [by vm_compute|]. eexists _, _.
  split; [by vm_compute|]. split; [by vm_compute|]. done.
Qed.

(** C8, amended.  An hour string that fails the test of [add] (it holds no
    digit, no "-" and no "*"; no hour spec of the data model is such a
    string) is ignored: the call does what the same call without the hour
    argument does.  So whenever it returns, the name is appended to
    [active], every group keeps its hours list, a group created by the call
    has the wildcard hours, and the string is in no hours list it was not
    in before; and it does return, with the group it works on in place
    afterwards (created if absent), whenever a group option is given or the
    group "default" exists. *)
Theorem rejected_hour_is_not_stored (o : Options) (st : Store) (h : string) :
  opt_hour o = Some h → hour_guard h = false →
  hour_spec_valid h = false
  ∧ add o st = add (without_hour o) st
  ∧ (∀ st', add o st = Ok st' →
       active st' = active st ++ [add_groupname o]
       ∧ (∀ name g', groups st' !! name = Some g' →
            hours g' = match groups st !! name with
                       | Some g => hours g
                       | None => ["*"%string]
                       end)
       ∧ (∀ name g', groups st' !! name = Some g' → h ∈ hours g' →
            ∃ g, groups st !! name = Some g ∧ h ∈ hours g))
  ∧ (truthy (opt_group o) = true ∨ is_Some (groups st !! "default"%string) →
       ∃ st', add o st = Ok st' ∧ is_Some (groups st' !! add_groupname o)).
Proof.
  intros Hh Hg.
  assert (Hcreate : ∀ name g, add_create o (groups st) !! name = Some g →
            hours g = match groups st !! name with
                      | Some g1 => hours g1
                      | None => ["*"%string]
                      end).
  { intros name g. rewrite add_create_lookup.
    destruct (groups st !! name) as [g1|]; [by intros [= <-]|].
    destruct (_ && _); [|done]. by intros [= <-]. }
  assert (Hkeep : ∀ st', add o st = Ok st' → ∀ name g',
            groups st' !! name = Some g' →
            hours g' = match groups st !! name with
                       | Some g => hours g
                       | None => ["*"%string]
                       end).
  { intros st' Hadd name g'.
    apply add_inv in Hadd as [_ [Hgs|(g0 & H0 & Hgs)]]; rewrite Hgs.
    - apply Hcreate.
    - rewrite lookup_insert. case_decide as Hn.
      + intros [= <-]. rewrite hours_domain_step, hours_days_step.
        unfold hours_step. rewrite Hh, Hg. subst name. by apply Hcreate.
      + apply Hcreate. }
  split.
  { destruct (hour_spec_valid h) eqn:E; [|done].
    apply hour_spec_valid_guard in E. congruence. }
  split.
  { assert (Hskip : ∀ gs, add_hours o (add_groupname o) gs = Ok gs).
    { intros gs. unfold add_hours. by rewrite Hh, Hg. }
    unfold add. rewrite Hskip. reflexivity. }
  split.
  - intros st' Hadd. split; [by apply add_inv in Hadd as [? _]|].
    split; [by apply Hkeep|].
    intros name g' Hl Hin. rewrite (Hkeep _ Hadd _ _ Hl) in Hin.
    destruct (groups st !! name) as [g|]; [by exists g|].
    apply list_elem_of_singleton in Hin. subst h. discriminate Hg.
  - intros Hex.
    assert (H0 : is_Some (add_create o (groups st) !! add_groupname o)).
    { destruct (truthy (opt_group o)) eqn:Ht; [by apply add_create_named|].
      destruct Hex as [?|Hd]; [done|].
      unfold add_create, add_groupname. rewrite Ht.
      destruct (opt_group o) as [g|]; [|done]. by rewrite Ht. }
    destruct H0 as [g0 H0]. eexists. split; [by apply add_Ok|].
    cbn [groups]. by rewrite lookup_insert_eq.
Qed.

(** The hour "abc" with the group "work". *)
Lemma rejected_hour_is_not_stored_abc :
  ∃ st' g',
    add (mkOptions (Some "work") (Some "abc") None None None)%string
      initial_store = Ok st'
    ∧ groups st' !! "default"%string = Some g' ∧ hours g' = ["*"%string].
Proof.
  destruct (rejected_hour_is_not_stored
              (mkOptions (Some "work") (Some "abc") None None None)%string
              initial_store "abc" eq_refl eq_refl)
    as (_ & _ & Hkeep & Hret).
  destruct Hret as (st' & Hadd & _); [left; reflexivity|].
  destruct (Hkeep st' Hadd) as (_ & Hhours & _).
  exists st'.
  destruct (groups st' !! "default"%string) as [g'|] eqn:E.
  - exists g'. split; [exact Hadd|]. split; [reflexivity|].
    apply (Hhours "default"%string g' E).
  - exfalso. vm_compute in Hadd. injection Hadd as <-. vm_compute in E.
    discriminate E.
Defined.

(** ** update_hosts *)

Section Synthesis.

Lemma collect_domains_spec st now names acc :
  (∀ name g, name ∈ names → groups st !! name = Some g →
             ∃ b, is_live st name now = Ok b) →
  ∃ found,
    collect_domains st now names acc = Ok found
    ∧ ∀ d, d ∈ found ↔
           d ∈ acc
           ∨ ∃ name g, name ∈ names ∧ groups st !! name = Some g
                       ∧ is_live st name now = Ok true ∧ d ∈ domains g.
Proof.
  revert acc. induction names as [|name names IH]; simpl; intros acc Hlive.
  - exists acc. split; [done|]. intros d. split; [by left|].
    intros [?|(name & g & Hin & _)]; [done|]. by apply elem_of_nil in Hin.
  - assert (Hrest : ∀ name' g, name' ∈ names → groups st !! name' = Some g →
                               ∃ b, is_live st name' now = Ok b).
    { intros name' g Hin. apply Hlive. by right. }
    destruct (groups st !! name) as [group|] eqn:Hg.
    + destruct (Hlive name group) as [b Hb]; [left|done|].
      rewrite Hb. simpl.
      destruct (IH (if b then acc ∪ list_to_set (domains group) else acc) Hrest)
        as (found & Hfound & Hiff).
      exists found. split; [done|]. intros d. rewrite Hiff. split.
      * intros [Hd|(name' & g & Hin & Hg' & Hl & Hd)].
        -- destruct b; [|by left].
           apply elem_of_union in Hd as [Hd|Hd]; [by left|].
           apply elem_of_list_to_set in Hd.
           right. exists name, group. split; [left|done].
        -- right. exists name', g. split; [by right|done].
      * intros [Hd|(name' & g & Hin & Hg' & Hl & Hd)].
        -- left. destruct b; [|done]. apply elem_of_union. by left.
        -- apply elem_of_cons in Hin as [->|Hin].
           ++ left. rewrite Hg in Hg'. injection Hg' as <-.
              rewrite Hl in Hb. injection Hb as <-.
              apply elem_of_union. right. by apply elem_of_list_to_set.
           ++ right. by exists name', g.
    + destruct (IH acc Hrest) as (found & Hfound & Hiff).
      exists found. split; [done|]. intros d. rewrite Hiff. split.
      * intros [Hd|(name' & g & Hin & Hg' & Hl & Hd)]; [by left|].
        right. exists name', g. split; [by right|done].
      * intros [Hd|(name' & g & Hin & Hg' & Hl & Hd)]; [by left|].
        apply elem_of_cons in Hin as [->|Hin]; [congruence|].
        right. by exists name', g.
Qed.

(** The list that [render] returns: the elements of the set, each once,
    in ascending order. *)
Lemma render_list (found : gset string) :
  (∀ d, d ∈ (render found).1 ↔ d ∈ found)
  ∧ NoDup (render found).1
  ∧ StronglySorted String.le (render found).1.
Proof.
  unfold render. case_bool_decide as Hsz; simpl.
  - split; [|split].
    + intros d. by rewrite merge_sort_Permutation, elem_of_elements.
    + rewrite merge_sort_Permutation. apply NoDup_elements.
    + apply StronglySorted_merge_sort; apply _.
  - assert (found ≡ ∅) as He by (apply size_empty_inv; lia).
    split; [|split]; [|constructor|constructor].
    intros d. rewrite He. split; intros Hd.
    + by apply elem_of_nil in Hd.
    + by apply not_elem_of_empty in Hd.
Qed.

Lemma append_assoc (s t u : string) : (s +:+ t) +:+ u = s +:+ t +:+ u.
Proof.
  induction s as [|c s IH]; [done|].
  change (String c ((s +:+ t) +:+ u) = String c (s +:+ t +:+ u)).
  by rewrite IH.
Qed.

Lemma line_prefix_domain d : line_prefix +:+ d = String "010" (host_line d).
Proof. done. Qed.

(** The prefix put in front of the joined list makes every domain a line
    of its own: a newline, then the lines separated by newlines. *)
Lemma prefixed_join d l :
  line_prefix +:+ join line_prefix (d :: l)
  = String "010" (join (String "010" EmptyString) (host_line <$> d :: l)).
Proof.
  revert d. induction l as [|d' l IH]; intros d.
  - apply line_prefix_domain.
  - change (join line_prefix (d :: d' :: l))
      with (d +:+ line_prefix +:+ join line_prefix (d' :: l)).
    rewrite IH.
    change (join (String "010" EmptyString) (host_line <$> d :: d' :: l))
      with (host_line d +:+ String "010" EmptyString
            +:+ join (String "010" EmptyString) (host_line <$> d' :: l)).
    rewrite <- append_assoc, line_prefix_domain. reflexivity.
Qed.

Lemma is_live_groups st st' name now :
  groups st' = groups st → is_live st' name now = is_live st name now.
Proof. intros H. unfold is_live. by rewrite H. Qed.

Lemma list_remove_subseteq x y l : y ∈ list_remove x l → y ∈ l.
Proof.
  induction l as [|z l IH]; simpl; [done|].
  case_bool_decide as Hz.
  - intros Hy. by right.
  - intros [->|Hy]%elem_of_cons; [left|right; auto].
Qed.

End Synthesis.

(** C4.  When [_is_live] can be evaluated for the active groups that exist,
    the synthesis returns, and a domain is in its result iff it is a domain
    of a group whose name is in [active], which exists in [groups] and
    which [_is_live] finds live at that instant; the result has no
    duplicates and is in ascending order; a name without a group is not
    live, without error, and so contributes nothing, as does a group whose
    name is not in [active]. *)
Theorem synthesize_active_live_sorted (st : Store) (now : Instant) :
  (∀ name g, name ∈ active st → groups st !! name = Some g →
             ∃ b, is_live st name now = Ok b) →
  ∃ ds,
    synthesize st now = Ok ds
    ∧ (∀ d, d ∈ ds ↔
            ∃ name g, name ∈ active st ∧ groups st !! name = Some g
                      ∧ is_live st name now = Ok true ∧ d ∈ domains g)
    ∧ NoDup ds
    ∧ StronglySorted String.le ds
    ∧ (∀ name, groups st !! name = None → is_live st name now = Ok false).
Proof.
  intros Hlive.
  destruct (collect_domains_spec st now (active st) ∅ Hlive)
    as (found & Hfound & Hiff).
  destruct (render_list found) as (Hmem & Hnd & Hs).
  exists (render found).1. split.
  { unfold synthesize, update_hosts. by rewrite Hfound. }
  split; [|split; [done|split; [done|]]].
  - intros d. rewrite Hmem, Hiff. split.
    + intros [Hd|H]; [|done]. by apply not_elem_of_empty in Hd.
    + intros H. by right.
  - intros name. apply is_live_missing.
Qed.

(** The scenario store on a Monday at 10, with a second active name that
    has no group and an inactive group. *)
Lemma synthesize_active_live_sorted_work :
  let work := mkGroup ["9-17"] ["foo.com"; "example.com"] ["Monday"; "Tuesday"] in
  let idle := mkGroup ["*"] ["idle.org"] ["*"] in
  let st := mkStore ["work"; "gone"] {[ "work" := work; "idle" := idle ]} in
  ∃ ds, synthesize st (mkInstant 10 0) = Ok ds
        ∧ ds = ["example.com"; "foo.com"]%string.
Proof.
  intros work idle st.
  assert (Hlive : ∀ name g, name ∈ active st → groups st !! name = Some g →
                            ∃ b, is_live st name (mkInstant 10 0) = Ok b).
  { intros name g Hin _. simpl in Hin.
    apply elem_of_cons in Hin as [->|Hin]; [by exists true|].
    apply list_elem_of_singleton in Hin as ->. by exists false. }
  destruct (synthesize_active_live_sorted st (mkInstant 10 0) Hlive)
    as (ds & Hs & _).
  exists ds. split; [exact Hs|].
  vm_compute in Hs. by injection Hs as <-.
Defined.

(** C5.  The body made from the collected set.  The list that is rendered
    holds the domains of the set and no others, each once, in ascending
    order, so there is one line per domain; the body is empty for the empty
    set, and otherwise a newline (the blank line after the preceding
    content) followed by the lines, blackhole address, tab, domain,
    separated by single newlines. *)
Theorem body_lines (found : gset string) :
  (∀ d, d ∈ (render found).1 ↔ d ∈ found)
  ∧ NoDup (render found).1
  ∧ StronglySorted String.le (render found).1
  ∧ length (render found).1 = size found
  ∧ (found = ∅ → render found = ([], EmptyString))
  ∧ (found ≠ ∅ →
       (render found).1 ≠ []
       ∧ (render found).2
         = String "010"
             (join (String "010" EmptyString) (host_line <$> (render found).1)))
  ∧ (∀ d, host_line d = "127.0.0.250" +:+ String "009" d)
  ∧ (∀ st now r, update_hosts st now = Ok r →
       ∃ found', collect_domains st now (active st) ∅ = Ok found'
                 ∧ r = render found').
Proof.
  destruct (render_list found) as (Hmem & Hnd & Hsorted).
  split; [done|]. split; [done|]. split; [done|]. split.
  { unfold render. case_bool_decide as Hsz; simpl.
    - by rewrite merge_sort_Permutation.
    - lia. }
  split; [by intros ->|]. split; [|split; [done|]].
  - intros Hne. unfold render. rewrite bool_decide_true.
    2:{ destruct (size found) eqn:E; [|lia].
        apply size_empty_inv in E. destruct Hne. by apply leibniz_equiv. }
    simpl.
    destruct (merge_sort String.le (elements found)) as [|d l] eqn:E.
    + exfalso. apply Hne. apply leibniz_equiv. apply elements_empty_inv.
      pose proof (merge_sort_Permutation String.le (elements found)) as Hp.
      rewrite E in Hp. by apply Permutation_nil_l in Hp.
    + split; [done|]. apply prefixed_join.
  - intros st now r H. unfold update_hosts in H.
    apply bind_Ok in H as (found' & Hc & H). exists found'.
    split; [done|]. by injection H as <-.
Qed.

(** C10.  When an existing group's name occurs at least twice in [active],
    one [deactivate] of that name removes one occurrence only: the groups
    and the other names are untouched, the name is still in [active], and
    at every instant at which the group is live the synthesis still returns
    all of its domains. *)
Theorem deactivate_removes_one_occurrence (st : Store) (g : string) (grp : Group) :
  groups st !! g = Some grp →
  (2 ≤ count_occ string_dec (active st) g)%nat →
  let st' := deactivate (with_group g) st in
  groups st' = groups st
  ∧ count_occ string_dec (active st') g
    = pred (count_occ string_dec (active st) g)
  ∧ (∀ x, x ≠ g →
       count_occ string_dec (active st') x = count_occ string_dec (active st) x)
  ∧ g ∈ active st'
  ∧ ∀ now,
      is_live st' g now = Ok true →
      (∀ name g', name ∈ active st → groups st !! name = Some g' →
                  ∃ b, is_live st name now = Ok b) →
      ∃ ds, synthesize st' now = Ok ds ∧ ∀ d, d ∈ domains grp → d ∈ ds.
Proof.
  intros Hg Hc st'.
  assert (Hin : g ∈ active st) by (apply count_occ_elem_of; lia).
  assert (Hst' : st' = mkStore (list_remove g (active st)) (groups st)).
  { unfold st', deactivate. simpl.
    rewrite bool_decide_true by done.
    rewrite bool_decide_true by (by rewrite Hg). done. }
  assert (Hcount : ∀ x, count_occ string_dec (active st') x
                        = if bool_decide (x = g)
                          then pred (count_occ string_dec (active st) x)
                          else count_occ string_dec (active st) x).
  { intros x. rewrite Hst'. simpl. rewrite list_remove_count.
    by rewrite bool_decide_true by done. }
  assert (Hin' : g ∈ active st').
  { apply count_occ_elem_of. rewrite Hcount, bool_decide_true by done. lia. }
  assert (Hgs : groups st' = groups st) by by rewrite Hst'.
  split; [done|]. split.
  { rewrite Hcount. by rewrite bool_decide_true. }
  split.
  { intros x Hx. rewrite Hcount. by rewrite bool_decide_false. }
  split; [done|].
  intros now Hlive Hall.
  destruct (collect_domains_spec st' now (active st') ∅)
    as (found & Hfound & Hiff).
  { intros name g' Hname Hg'. rewrite (is_live_groups st st' _ _ Hgs).
    rewrite Hgs in Hg'. apply (Hall name g'); [|done].
    rewrite Hst' in Hname. simpl in Hname.
    by apply list_remove_subseteq in Hname. }
  destruct (render_list found) as (Hmem & _).
  exists (render found).1. split.
  { unfold synthesize, update_hosts. by rewrite Hfound. }
  intros d Hd. apply Hmem, Hiff. right.
  exists g, grp. rewrite Hgs. done.
Qed.

(** Two [add] calls on the initial store put "default" in [active] three
    times; after one [deactivate] it is still there and its domain is
    still blocked. *)
Lemma deactivate_removes_one_occurrence_default :
  ∃ st1 st2 ds,
    add (with_domain "example.com") initial_store = Ok st1
    ∧ add (with_domain "foo.com") st1 = Ok st2
    ∧ active st2 = ["default"; "default"; "default"]%string
    ∧ active (deactivate (with_group "default") st2)
      = ["default"; "default"]%string
    ∧ synthesize (deactivate (with_group "default") st2) (mkInstant 10 0) = Ok ds
    ∧ "example.com"%string ∈ ds.
Proof.
  eexists _, _.
  pose (st2 := mkStore ["default"; "default"; "default"]%string
                 {[ "default"%string :=
                      mkGroup ["*"%string] ["example.com"; "foo.com"]%string
                        ["*"%string] ]}).
  destruct (deactivate_removes_one_occurrence st2 "default"
              (mkGroup ["*"%string] ["example.com"; "foo.com"]%string ["*"%string])
              eq_refl) as (_ & _ & _ & _ & Hsyn).
  { simpl. lia. }
  destruct (Hsyn (mkInstant 10 0)) as (ds & Hds & Hin).
  { reflexivity. }
  { intros name g' _ Hg'. unfold is_live. rewrite Hg'. simpl.
    destruct (in_hours g' (mkInstant 10 0)) as [b|e] eqn:E.
    - by eexists.
    - exfalso. simpl in Hg'. apply lookup_singleton_Some in Hg' as [_ <-].
      discriminate E. }
  exists ds.
  split; [reflexivity|]. split; [vm_compute; reflexivity|].
  split; [reflexivity|]. split; [reflexivity|].
  split; [exact Hds|]. apply Hin. left.
Defined.

(** * Further properties of the code *)

(** ** The schedule test, continued *)

Section ScheduleErrors.

Lemma int_raises s e : int s = Raise e → e = ValueError.
Proof.
  unfold int. destruct (match lstrip s with EmptyString => _ | String _ _ => _ end).
  - discriminate.
  - by intros [= <-].
Qed.

Lemma hour_spec_live_raises h s e : hour_spec_live h s = Raise e → e = ValueError.
Proof.
  unfold hour_spec_live. destruct (has_dash s); [|discriminate].
  destruct (partition "-" s) as [[hs m] he].
  destruct (int hs) as [a|e1] eqn:Ea; simpl.
  - destruct (a <=? h); [|discriminate].
    destruct (int he) as [b|e2] eqn:Eb; simpl; [discriminate|].
    intros [= <-]. by apply (int_raises he).
  - intros [= <-]. by apply (int_raises hs).
Qed.

(** The loop stops with an exception exactly when some entry raises one. *)
Lemma hours_loop_raise h l acc :
  (∃ e, hours_loop h l acc = Raise e) ↔
  ∃ s, s ∈ l ∧ ∃ e, hour_spec_live h s = Raise e.
Proof.
  revert acc. induction l as [|s l IH]; simpl; intros acc.
  - split; [by intros [e ?]|]. intros (s & Hs & _). by apply elem_of_nil in Hs.
  - destruct (hour_spec_live h s) as [m|e] eqn:Es; simpl.
    + rewrite IH. split.
      * intros (s' & Hin & He). exists s'. split; [by right|done].
      * intros (s' & Hin & e & He). apply elem_of_cons in Hin as [->|Hin].
        -- congruence.
        -- exists s'. split; [done|by exists e].
    + split; [|by exists e]. intros _. exists s. split; [left|by exists e].
Qed.

Lemma hours_loop_raises h l acc e : hours_loop h l acc = Raise e → e = ValueError.
Proof.
  revert acc. induction l as [|s l IH]; simpl; intros acc; [discriminate|].
  destruct (hour_spec_live h s) as [m|e1] eqn:E1; simpl; [apply IH|].
  intros [= <-]. by apply (hour_spec_live_raises h s).
Qed.

Lemma in_hours_raises g now e : in_hours g now = Raise e → e = ValueError.
Proof.
  unfold in_hours. case_bool_decide; [discriminate|]. apply hours_loop_raises.
Qed.

Lemma is_live_raises st name now e : is_live st name now = Raise e → e = ValueError.
Proof.
  unfold is_live. destruct (groups st !! name) as [g|]; [|discriminate].
  destruct (in_hours g now) as [b|e1] eqn:E; simpl; [discriminate|].
  intros [= <-]. by apply (in_hours_raises g now).
Qed.

Lemma collect_domains_raises st now names acc e :
  collect_domains st now names acc = Raise e → e = ValueError.
Proof.
  revert acc. induction names as [|name names IH]; simpl; intros acc; [discriminate|].
  destruct (groups st !! name) as [g|]; [|apply IH].
  destruct (is_live st name now) as [b|e1] eqn:E; simpl; [apply IH|].
  intros [= <-]. by apply (is_live_raises st name now).
Qed.

(** The loop over [active] stops with an exception as soon as [_is_live]
    raises one for a name whose group exists. *)
Lemma collect_domains_raise st now names acc name g e :
  name ∈ names → groups st !! name = Some g → is_live st name now = Raise e →
  collect_domains st now names acc = Raise ValueError.
Proof.
  intros Hin Hg Hl. revert acc.
  induction names as [|name' names IH]; intros acc; [by apply elem_of_nil in Hin|].
  simpl. destruct (groups st !! name') as [g'|] eqn:Hg'.
  - destruct (is_live st name' now) as [b|e1] eqn:E; simpl.
    + apply elem_of_cons in Hin as [->|Hin]; [congruence|]. by apply IH.
    + by rewrite (is_live_raises _ _ _ _ E).
  - apply elem_of_cons in Hin as [->|Hin]; [congruence|]. by apply IH.
Qed.

(** Conversely, when the loop returns, [_is_live] was evaluated for every
    name whose group exists. *)
Lemma collect_domains_Ok_inv st now names acc found :
  collect_domains st now names acc = Ok found →
  ∀ name g, name ∈ names → groups st !! name = Some g →
            ∃ b, is_live st name now = Ok b.
Proof.
  revert acc. induction names as [|name' names IH]; simpl; intros acc H name g Hin Hg.
  - by apply elem_of_nil in Hin.
  - destruct (groups st !! name') as [g'|] eqn:Hg'.
    + apply bind_Ok in H as (b & Hb & H).
      apply elem_of_cons in Hin as [->|Hin]; [by exists b|].
      by apply (IH _ H name g).
    + apply elem_of_cons in Hin as [->|Hin]; [congruence|].
      by apply (IH _ H name g).
Qed.

End ScheduleErrors.

(** X1.  The hour check of [_is_live] raises, always ValueError, exactly
    when the hours list holds no wildcard and some entry cannot be read at
    this hour, wherever that entry stands and whatever matched before it;
    with a wildcard in the list no entry is read at all. *)
Theorem hour_check_raises_iff (g : Group) (now : Instant) :
  ((∃ e, in_hours g now = Raise e) ↔
     ("*"%string ∉ hours g)
     ∧ ∃ s, s ∈ hours g ∧ ∃ e, hour_spec_live (hour now) s = Raise e)
  ∧ (∀ e, in_hours g now = Raise e → e = ValueError)
  ∧ ("*"%string ∈ hours g → in_hours g now = Ok true).
Proof.
  split; [|split].
  - unfold in_hours. case_bool_decide as Hw.
    + split; [by intros [e ?]|]. by intros [? _].
    + rewrite hours_loop_raise. split; [done|]. by intros [_ ?].
  - apply in_hours_raises.
  - intros Hw. unfold in_hours. by rewrite bool_decide_true.
Qed.

(** X2.  [add] stores a range whose end is no integer without complaint
    (the string holds a "-"); from then on the group is quietly not live
    before the start hour, and from the start hour on [_is_live] and with
    it every [update_hosts] raises ValueError. *)
Theorem unreadable_range_end_breaks_update
    (sa sb : string) (a : Z) (e : Py.exn) (st : Store) (g0 : Group) :
  has_dash sa = false → int sa = Ok a → int sb = Raise e →
  groups st !! "default"%string = Some g0 → hours g0 = ["*"%string] →
  ∃ st' g',
    add (with_hour (sa +:+ String "-" sb)) st = Ok st'
    ∧ groups st' !! "default"%string = Some g'
    ∧ hours g' = [sa +:+ String "-" sb]
    ∧ (∀ now, hour now < a → is_live st' "default" now = Ok false)
    ∧ (∀ now, a ≤ hour now →
         is_live st' "default" now = Raise ValueError
         ∧ update_hosts st' now = Raise ValueError).
Proof.
  intros Hsa Ha Hb Hg Hw. set (spec := sa +:+ String "-" sb).
  assert (Hlive : ∀ h, hour_spec_live h spec
                       = if a <=? h then Raise ValueError else Ok false).
  { intros h. unfold hour_spec_live, spec.
    rewrite has_dash_range, (partition_first _ _ _ Hsa), Ha. simpl.
    destruct (a <=? h); [|done]. rewrite Hb. simpl.
    by rewrite (int_raises _ _ Hb). }
  assert (Hguard : hour_guard spec = true).
  { unfold hour_guard. apply andb_true_iff. split.
    - simpl. rewrite bool_decide_false; [done|].
      unfold spec. by destruct sa.
    - apply (search_class_mono (λ c, bool_decide (c = "-"%char))).
      + intros c Hc. unfold hour_class. rewrite Hc. by rewrite orb_true_r.
      + apply has_dash_range. }
  assert (H0 : add_create (with_hour spec) (groups st)
               !! add_groupname (with_hour spec) = Some g0) by done.
  pose proof (add_Ok _ _ _ H0) as Hadd.
  set (g' := domain_step (with_hour spec) (days_step (with_hour spec)
               (hours_step (with_hour spec) g0))) in *.
  assert (Hh : hours g' = [spec]).
  { unfold g', domain_step, days_step, hours_step. simpl. rewrite Hguard. simpl.
    rewrite Hw, add_spec_replaces by apply range_not_wildcard.
    apply sorted_set_singleton. }
  eexists _, g'. split; [exact Hadd|]. simpl.
  split; [by rewrite lookup_insert_eq|]. split; [done|].
  assert (Hin : ∀ now, in_hours g' now
                       = if a <=? hour now then Raise ValueError else Ok false).
  { intros now. unfold in_hours. rewrite Hh.
    rewrite bool_decide_false.
    2:{ intros Hx%list_elem_of_singleton. by apply (range_not_wildcard sa sb). }
    simpl. rewrite Hlive. by destruct (a <=? hour now). }
  assert (Hl : ∀ now, is_live
                 (mkStore (active st ++ ["default"%string])
                    (<["default"%string := g']> (groups st))) "default" now
               = if a <=? hour now then Raise ValueError else Ok false).
  { intros now. unfold is_live. simpl. rewrite lookup_insert_eq, Hin.
    by destruct (a <=? hour now). }
  split.
  - intros now Hlt. change (add_create (with_hour spec) (groups st)) with (groups st).
    change (add_groupname (with_hour spec)) with "default"%string.
    rewrite Hl. destruct (a <=? hour now) eqn:E; [lia|done].
  - intros now Hle. change (add_create (with_hour spec) (groups st)) with (groups st).
    change (add_groupname (with_hour spec)) with "default"%string.
    assert (Hr := Hl now). destruct (a <=? hour now) eqn:E; [|lia].
    split; [done|]. unfold update_hosts.
    rewrite (collect_domains_raise _ now _ ∅ "default" g' ValueError); [done| |by simpl; rewrite lookup_insert_eq|done].
    simpl. apply elem_of_app. right. left.
Qed.

(** The entry "9-x" added to the initial store. *)
Lemma unreadable_range_end_breaks_update_9_x :
  ∃ st', add (with_hour "9-x") initial_store = Ok st'
         ∧ is_live st' "default" (mkInstant 8 0) = Ok false
         ∧ update_hosts st' (mkInstant 10 0) = Raise ValueError.
Proof.
  destruct (unreadable_range_end_breaks_update "9" "x" 9 ValueError
              initial_store new_group eq_refl eq_refl eq_refl eq_refl eq_refl)
    as (st' & g' & Hadd & _ & _ & Hbefore & Hafter).
  exists st'. split; [exact Hadd|]. split.
  - apply (Hbefore (mkInstant 8 0)). reflexivity.
  - apply (Hafter (mkInstant 10 0)). discriminate.
Defined.

(** X3.  A range whose end is not above its start, such as an overnight
    window "22-6", matches no hour: a group with that entry alone is never
    live. *)
Theorem reversed_range_never_matches
    (sa sb : string) (a b : Z) (st : Store) (name : string) (g : Group) :
  has_dash sa = false → int sa = Ok a → int sb = Ok b → b ≤ a →
  groups st !! name = Some g → hours g = [sa +:+ String "-" sb] →
  ∀ now, in_hours g now = Ok false ∧ is_live st name now = Ok false.
Proof.
  intros Hsa Ha Hb Hba Hg Hh now.
  assert (Hin : in_hours g now = Ok false).
  { unfold in_hours. rewrite Hh. rewrite bool_decide_false.
    2:{ intros Hx%list_elem_of_singleton. by apply (range_not_wildcard sa sb). }
    simpl. rewrite (hour_spec_live_range _ _ _ _ _ Hsa Ha Hb). simpl.
    destruct (a <=? hour now) eqn:E1; [|done].
    destruct (hour now <? b) eqn:E2; [|done]. lia. }
  split; [done|]. unfold is_live. by rewrite Hg, Hin.
Qed.

(** The window "22-6" at hours 23 and 3. *)
Lemma reversed_range_never_matches_22_6 :
  let g := mkGroup ["22-6"%string] ["example.com"%string] ["*"%string] in
  let st := mkStore ["night"%string] {[ "night"%string := g ]} in
  is_live st "night" (mkInstant 23 0) = Ok false
  ∧ is_live st "night" (mkInstant 3 0) = Ok false.
Proof.
  intros g st.
  assert (H := reversed_range_never_matches "22" "6" 22 6 st "night" g
                 eq_refl eq_refl eq_refl ltac:(discriminate) eq_refl eq_refl).
  split; [apply (H (mkInstant 23 0))|apply (H (mkInstant 3 0))].
Defined.

(** X4.  What [list] shows agrees with what [update_hosts] blocks: when
    [_is_live] can be evaluated for the active groups that exist, the
    domains synthesized are exactly the domains of the groups whose status
    line reads Running. *)
Theorem running_groups_are_blocked (st : Store) (now : Instant) :
  (∀ name g, name ∈ active st → groups st !! name = Some g →
             ∃ b, is_live st name now = Ok b) →
  ∃ ds,
    synthesize st now = Ok ds
    ∧ ∀ d, d ∈ ds ↔
           ∃ name g, groups st !! name = Some g
                     ∧ list_running st name now = Ok true ∧ d ∈ domains g.
Proof.
  intros Hlive.
  destruct (collect_domains_spec st now (active st) ∅ Hlive)
    as (found & Hfound & Hiff).
  destruct (render_list found) as (Hmem & _).
  exists (render found).1. split.
  { unfold synthesize, update_hosts. by rewrite Hfound. }
  intros d. rewrite Hmem, Hiff. unfold list_running. split.
  - intros [Hd|(name & g & Hin & Hg & Hl & Hd)]; [by apply not_elem_of_empty in Hd|].
    exists name, g. split; [done|]. split; [|done].
    rewrite Hl. simpl. by rewrite bool_decide_true.
  - intros (name & g & Hg & Hr & Hd). right. exists name, g.
    apply bind_Ok in Hr as (live & Hl & Hr). injection Hr as Hr.
    apply andb_true_iff in Hr as [-> Ha]. apply bool_decide_eq_true in Ha.
    done.
Qed.

(** The scenario store with an inactive group that is live. *)
Lemma running_groups_are_blocked_work :
  let work := mkGroup ["9-17"] ["foo.com"; "example.com"] ["Monday"] in
  let idle := mkGroup ["*"] ["idle.org"] ["*"] in
  let st := mkStore ["work"] {[ "work" := work; "idle" := idle ]} in
  list_running st "work" (mkInstant 10 0) = Ok true
  ∧ list_running st "idle" (mkInstant 10 0) = Ok false
  ∧ ∃ ds, synthesize st (mkInstant 10 0) = Ok ds.
Proof.
  intros work idle st. split; [reflexivity|]. split; [reflexivity|].
  destruct (running_groups_are_blocked st (mkInstant 10 0)) as (ds & Hs & _).
  { intros name g Hin _. simpl in Hin.
    apply list_elem_of_singleton in Hin as ->. by exists true. }
  by exists ds.
Defined.

(** ** add, continued *)

Section AddInvariants.

Lemma elem_of_add_spec x s l : x ∈ add_spec s l → x = s ∨ x ∈ l.
Proof.
  unfold add_spec. case_bool_decide as Hs.
  - intros Hx%list_elem_of_singleton. left. congruence.
  - case_bool_decide.
    + intros Hx%list_elem_of_singleton. by left.
    + intros [Hx|Hx%list_elem_of_singleton]%elem_of_app; [by right|by left].
Qed.

Lemma wildcard_known : "*"%string ∈ days_map.
Proof. apply (bool_decide_unpack _). by vm_compute. Qed.

Lemma day_guard_known d : day_guard d = true → d ∈ days_map.
Proof.
  unfold day_guard. intros [_ H]%andb_true_iff. by apply bool_decide_eq_true in H.
Qed.

Lemma days_step_known o g :
  (∀ d, d ∈ days g → d ∈ days_map) →
  ∀ d, d ∈ days (days_step o g) → d ∈ days_map.
Proof.
  intros Hg d. unfold days_step.
  destruct (opt_day o) as [x|]; [destruct (day_guard x) eqn:E|]; try apply Hg.
  simpl. intros Hd. apply (proj1 (elem_of_sorted_set _ _)) in Hd.
  apply elem_of_add_spec in Hd as [->|Hd]; [by apply day_guard_known|by apply Hg].
Qed.

(** An invariant of the fields of every group, kept by [add] when the
    group made by "create group if needed" and each of the three steps keep
    it. *)
Lemma add_invariant (P : Group → Prop) o st st' :
  P new_group →
  (∀ g, P g → P (domain_step o (days_step o (hours_step o g)))) →
  (∀ name g, groups st !! name = Some g → P g) →
  add o st = Ok st' →
  ∀ name g, groups st' !! name = Some g → P g.
Proof.
  intros Hnew Hstep Hst Hadd.
  assert (Hc : ∀ name g, add_create o (groups st) !! name = Some g → P g).
  { intros name g. rewrite add_create_lookup.
    destruct (groups st !! name) as [g'|] eqn:E.
    - intros [= <-]. by apply (Hst name).
    - destruct (_ && _); [|done]. by intros [= <-]. }
  apply add_inv in Hadd as [_ [Hg|(g0 & Hg0 & Hg)]]; intros name g; rewrite Hg.
  - apply Hc.
  - rewrite lookup_insert. case_decide.
    + intros [= <-]. apply Hstep. by apply (Hc _ _ Hg0).
    + apply Hc.
Qed.

Lemma add_all_invariant (I : Store → Prop) os st st' :
  (∀ o st1 st2, I st1 → add o st1 = Ok st2 → I st2) →
  I st → add_all os st = Ok st' → I st'.
Proof.
  intros Hadd. revert st. induction os as [|o os IH]; simpl; intros st Hst H.
  - by injection H as <-.
  - apply bind_Ok in H as (st1 & H1 & H). apply (IH st1); [|done].
    by apply (Hadd o st).
Qed.

Lemma is_upper_lower_char c : is_upper (lower_char c) = false.
Proof. by destruct c as [[] [] [] [] [] [] [] []]. Qed.

Lemma lower_no_upper s : search_class is_upper (lower s) = false.
Proof.
  induction s as [|c s IH]; simpl; [done|].
  by rewrite is_upper_lower_char, IH.
Qed.

Lemma slice_from_no_upper n s :
  search_class is_upper s = false → search_class is_upper (slice_from n s) = false.
Proof.
  revert s. induction n as [|n IH]; intros s; [done|].
  destruct s as [|c s]; [done|]. simpl.
  intros [_ Hs]%orb_false_iff. by apply IH.
Qed.

Lemma normalize_domain_no_upper d :
  search_class is_upper (normalize_domain d) = false.
Proof.
  unfold normalize_domain. destruct (match_literal _ _).
  - apply slice_from_no_upper, lower_no_upper.
  - apply lower_no_upper.
Qed.

End AddInvariants.

(** X5.  Only the seven weekday names and "*" ever enter a days list:
    a store whose day entries are all of these, such as the initial one,
    stays so under [add] and under any sequence of [add] calls; a day
    argument that is none of them (say "monday") is dropped silently. *)
Theorem add_keeps_days_known :
  store_days_known initial_store
  ∧ (∀ o st st', store_days_known st → add o st = Ok st' → store_days_known st')
  ∧ (∀ os st st', store_days_known st → add_all os st = Ok st' →
                  store_days_known st')
  ∧ (∀ o g d, opt_day o = Some d → d ∉ days_map → days (days_step o g) = days g).
Proof.
  assert (Hadd : ∀ o st st', store_days_known st → add o st = Ok st' →
                             store_days_known st').
  { intros o st st' Hst H name g Hg.
    refine (add_invariant (λ g, ∀ d, d ∈ days g → d ∈ days_map) o st st'
              _ _ Hst H name g Hg).
    - intros d Hd%list_elem_of_singleton. subst.
      apply wildcard_known.
    - intros g1 Hg1. rewrite days_domain_step. apply days_step_known.
      by rewrite days_hours_step. }
  split; [|split; [done|split]].
  - intros name g H d Hd. simpl in H. apply lookup_singleton_Some in H as [_ <-].
    apply list_elem_of_singleton in Hd. subst. apply wildcard_known.
  - intros os st st'. by apply add_all_invariant.
  - intros o g d Hd Hn. unfold days_step, day_guard. rewrite Hd.
    rewrite (bool_decide_false (d ∈ days_map)) by done. by rewrite andb_false_r.
Qed.

(** X6.  With a group option [add] never raises: the group, named by the
    lower-cased option, exists afterwards (a new one has wildcard hours and
    days and no domains before the steps), its name is appended to
    [active], and no other group is touched. *)
Theorem add_with_group_option (o : Options) (st : Store) (g : string) :
  opt_group o = Some g → truthy (Some g) = true →
  ∃ st' g0,
    add o st = Ok st'
    ∧ active st' = active st ++ [lower g]
    ∧ g0 = default new_group (groups st !! lower g)
    ∧ groups st' !! lower g
      = Some (domain_step o (days_step o (hours_step o g0)))
    ∧ ∀ name, name ≠ lower g → groups st' !! name = groups st !! name.
Proof.
  intros Hg Ht.
  assert (Hname : add_groupname o = lower g).
  { unfold add_groupname. by rewrite Hg, Ht. }
  assert (Htr : truthy (opt_group o) = true) by by rewrite Hg.
  assert (H0 : add_create o (groups st) !! add_groupname o
               = Some (default new_group (groups st !! lower g))).
  { rewrite add_create_lookup, Hname, Htr.
    destruct (groups st !! lower g); simpl; [done|].
    by rewrite bool_decide_true. }
  eexists _, _. split; [by apply add_Ok|]. simpl. rewrite Hname.
  split; [done|]. split; [done|]. split; [by rewrite lookup_insert_eq|].
  intros name Hn. rewrite lookup_insert_ne by done.
  rewrite add_create_lookup, Hname.
  destruct (groups st !! name); [done|].
  rewrite (bool_decide_false (name = lower g)) by done. by rewrite andb_false_r.
Qed.

(** The option "Work" on the initial store. *)
Lemma add_with_group_option_work :
  ∃ st', add (with_group "Work") initial_store = Ok st'
         ∧ active st' = ["default"; "work"]%string
         ∧ groups st' !! "work"%string = Some new_group.
Proof.
  destruct (add_with_group_option (with_group "Work") initial_store "Work"
              eq_refl eq_refl) as (st' & g0 & Hadd & Hact & Hg0 & Hg & _).
  exists st'. split; [exact Hadd|]. split; [exact Hact|].
  rewrite Hg0 in Hg. exact Hg.
Defined.

(** X7.  Without a group option [add] works on "default" and does not
    create it: when that group is missing, a call with an hour, day or
    domain argument that passes its test raises AttributeError, and any
    other call only appends "default" to [active], where it then names no
    group. *)
Theorem add_without_default_group (o : Options) (st : Store) :
  truthy (opt_group o) = false → groups st !! "default"%string = None →
  add o st =
  if from_option hour_guard false (opt_hour o)
     || from_option day_guard false (opt_day o)
     || truthy (opt_domain o)
  then Raise AttributeError
  else Ok (mkStore (active st ++ ["default"%string]) (groups st)).
Proof.
  intros Ht Hd.
  assert (Hname : add_groupname o = "default"%string).
  { unfold add_groupname. destruct (opt_group o) as [g|]; [|done].
    by rewrite Ht. }
  unfold add, add_create, add_hours, add_days, add_domain, get_group.
  rewrite Ht, Hname.
  destruct (opt_hour o) as [h|]; simpl; [destruct (hour_guard h); simpl|];
    rewrite ?Hd; simpl; try done;
    (destruct (opt_day o) as [d|]; simpl; [destruct (day_guard d); simpl|];
     rewrite ?Hd; simpl; try done;
     (destruct (opt_domain o) as [m|]; simpl; [|done];
      destruct (negb (bool_decide (m = EmptyString))); simpl; rewrite ?Hd; done)).
Qed.

(** A store from which "default" was removed. *)
Lemma add_without_default_group_empty :
  add (with_hour "8") (mkStore [] ∅) = Raise AttributeError
  ∧ add no_options (mkStore [] ∅) = Ok (mkStore ["default"%string] ∅).
Proof.
  split.
  - apply (add_without_default_group (with_hour "8") (mkStore [] ∅));
      reflexivity.
  - apply (add_without_default_group no_options (mkStore [] ∅)); reflexivity.
Defined.

Section AddFields.

Lemma elem_of_add_spec_self s l : s ∈ add_spec s l.
Proof.
  unfold add_spec. case_bool_decide as Hs.
  - subst. left.
  - case_bool_decide; [left|]. apply elem_of_app. right. left.
Qed.

Lemma domains_days_step o g : domains (days_step o g) = domains g.
Proof.
  unfold days_step.
  destruct (opt_day o) as [d|]; [destruct (day_guard d)|]; done.
Qed.

Lemma domains_hours_step o g : domains (hours_step o g) = domains g.
Proof.
  unfold hours_step.
  destruct (opt_hour o) as [d|]; [destruct (hour_guard d)|]; done.
Qed.

Lemma domains_domain_step o g d :
  d ∈ domains (domain_step o g) →
  d ∈ domains g ∨ ∃ x, opt_domain o = Some x ∧ d = normalize_domain x.
Proof.
  unfold domain_step.
  destruct (opt_domain o) as [x|]; [destruct (truthy (Some x))|]; simpl;
    try by left.
  intros [Hd|Hd%list_elem_of_singleton]%elem_of_app; [by left|].
  right. by exists x.
Qed.

End AddFields.

(** X8.  After [add] with an hour argument that passes the test, the hours
    list of the group holds the argument, has no duplicates and is in
    ascending order of character codes; when no wildcard is involved it
    holds the old entries and the new one and nothing else, so adding an
    entry that is already there changes nothing but the order. *)
Theorem add_hour_sorts_and_dedups (o : Options) (st : Store) (g0 : Group) (h : string) :
  add_create o (groups st) !! add_groupname o = Some g0 →
  opt_hour o = Some h → hour_guard h = true →
  ∃ st' g',
    add o st = Ok st'
    ∧ groups st' !! add_groupname o = Some g'
    ∧ h ∈ hours g'
    ∧ NoDup (hours g')
    ∧ StronglySorted String.le (hours g')
    ∧ (h ≠ "*"%string → "*"%string ∉ hours g0 →
       ∀ x, x ∈ hours g' ↔ x ∈ hours g0 ∨ x = h).
Proof.
  intros H0 Hh Hg. eexists _, _. split; [by apply add_Ok|]. simpl.
  split; [by rewrite lookup_insert_eq|].
  rewrite hours_domain_step, hours_days_step. unfold hours_step.
  rewrite Hh, Hg. simpl.
  split; [apply elem_of_sorted_set, elem_of_add_spec_self|].
  split; [apply NoDup_sorted_set|]. split; [apply Sorted_sorted_set|].
  intros Hn Hw x. rewrite elem_of_sorted_set. unfold add_spec.
  rewrite bool_decide_false by done. rewrite bool_decide_false by done.
  rewrite elem_of_app, list_elem_of_singleton. done.
Qed.

(** The hours 9 and then 10 added to the initial store: "10" sorts before
    "9". *)
Lemma add_hour_sorts_and_dedups_9_10 :
  ∃ st1 st2 g2,
    add (with_hour "9") initial_store = Ok st1
    ∧ add (with_hour "10") st1 = Ok st2
    ∧ groups st2 !! "default"%string = Some g2
    ∧ hours g2 = ["10"; "9"]%string.
Proof.
  eexists _.
  destruct (add_hour_sorts_and_dedups (with_hour "10")
              (mkStore ["default"; "default"]%string
                 {[ "default"%string := mkGroup ["9"%string] [] ["*"%string] ]})
              (mkGroup ["9"%string] [] ["*"%string]) "10")
    as (st2 & g2 & Hadd & Hg2 & _); [reflexivity|reflexivity|reflexivity|].
  exists st2, g2. split; [reflexivity|]. split; [exact Hadd|].
  split; [exact Hg2|].
  vm_compute in Hadd. injection Hadd as <-.
  vm_compute in Hg2. by injection Hg2 as <-.
Defined.

(** X9.  [add] stores domains without upper-case letters: what it appends
    is lower-cased, and a store whose domains are all lower-case, such as
    the initial one, stays so under [add] and any sequence of [add]
    calls. *)
Theorem add_keeps_domains_lowercase :
  (∀ d, search_class is_upper (normalize_domain d) = false)
  ∧ store_lowercase initial_store
  ∧ (∀ o st st', store_lowercase st → add o st = Ok st' → store_lowercase st')
  ∧ (∀ os st st', store_lowercase st → add_all os st = Ok st' →
                  store_lowercase st').
Proof.
  assert (Hadd : ∀ o st st', store_lowercase st → add o st = Ok st' →
                             store_lowercase st').
  { intros o st st' Hst H name g Hg.
    refine (add_invariant
              (λ g, ∀ d, d ∈ domains g → search_class is_upper d = false)
              o st st' _ _ Hst H name g Hg).
    - intros d Hd. by apply elem_of_nil in Hd.
    - intros g1 Hg1 d Hd. apply domains_domain_step in Hd as [Hd|(x & _ & ->)].
      + apply Hg1. by rewrite domains_days_step, domains_hours_step in Hd.
      + apply normalize_domain_no_upper. }
  split; [apply normalize_domain_no_upper|]. split; [|split; [done|]].
  - intros name g H d Hd. simpl in H. apply lookup_singleton_Some in H as [_ <-].
    by apply elem_of_nil in Hd.
  - intros os st st'. by apply add_all_invariant.
Qed.

(** X10.  [add] lower-cases the group option, [activate] and
    [deactivate] do not: after [add] with a name that has upper-case
    letters (and is itself no key of the document), [deactivate] and
    [activate] with the name as typed do nothing, and the group stays
    active. *)
Theorem deactivate_takes_the_name_as_typed (st : Store) (g : string) :
  truthy (Some g) = true → lower g ≠ g → groups st !! g = None →
  ∃ st',
    add (with_group g) st = Ok st'
    ∧ is_Some (groups st' !! lower g)
    ∧ lower g ∈ active st'
    ∧ deactivate (with_group g) st' = st'
    ∧ activate (with_group g) st' = st'.
Proof.
  intros Ht Hl Hg.
  assert (Hname : add_groupname (with_group g) = lower g).
  { change (add_groupname (with_group g))
      with (if truthy (Some g) then lower g else "default"%string).
    by rewrite Ht. }
  assert (H0 : is_Some (add_create (with_group g) (groups st)
                        !! add_groupname (with_group g))).
  { apply add_create_named. simpl. exact Ht. }
  destruct H0 as [g0 H0]. eexists. split; [by apply add_Ok|].
  rewrite Hname. simpl.
  split; [by rewrite lookup_insert_eq|].
  split; [apply elem_of_app; right; left|].
  assert (Hnone : (<[lower g := domain_step (with_group g)
                      (days_step (with_group g) (hours_step (with_group g) g0))]>
                     (add_create (with_group g) (groups st))) !! g = None).
  { rewrite lookup_insert_ne by done. rewrite add_create_lookup, Hg, Hname.
    rewrite (bool_decide_false (g = lower g)) by done. by rewrite andb_false_r. }
  unfold deactivate, activate. simpl. rewrite Hnone.
  rewrite (bool_decide_false (is_Some None)) by (by intros [? ?]).
  by rewrite !andb_false_r.
Qed.

(** The name "Work". *)
Lemma deactivate_takes_the_name_as_typed_work :
  ∃ st', add (with_group "Work") initial_store = Ok st'
         ∧ deactivate (with_group "Work") st' = st'
         ∧ active st' = ["default"; "work"]%string.
Proof.
  destruct (deactivate_takes_the_name_as_typed initial_store "Work"
              eq_refl ltac:(discriminate) eq_refl)
    as (st' & Hadd & _ & _ & Hde & _).
  exists st'. split; [exact Hadd|]. split; [exact Hde|].
  vm_compute in Hadd. by injection Hadd as <-.
Defined.

(** ** activate and deactivate *)

Section Active.

Lemma elem_of_list_remove_NoDup x g l :
  NoDup l → x ∈ list_remove g l ↔ x ∈ l ∧ x ≠ g.
Proof.
  induction 1 as [|y l Hy Hl IH]; simpl.
  - split; [by intros ?%elem_of_nil|by intros [?%elem_of_nil _]].
  - case_bool_decide as Hyg.
    + subst y. split.
      * intros Hx. split; [by right|]. by intros ->.
      * intros [[->|Hx]%elem_of_cons Hn]; done.
    + rewrite !elem_of_cons, IH. split.
      * intros [->|[Hx Hn]]; [split; [by left|done]|split; [by right|done]].
      * intros [[->|Hx] Hn]; [by left|by right].
Qed.

Lemma NoDup_list_remove g l : NoDup l → NoDup (list_remove g l).
Proof.
  induction 1 as [|y l Hy Hl IH]; simpl; [constructor|].
  case_bool_decide; [done|]. constructor; [|done].
  intros Hin. by apply list_remove_subseteq in Hin.
Qed.

Lemma list_remove_app_last g l : g ∉ l → list_remove g (l ++ [g]) = l.
Proof.
  induction l as [|y l IH]; simpl; intros Hg.
  - by rewrite bool_decide_true.
  - apply not_elem_of_cons in Hg as [Hgy Hg].
    rewrite bool_decide_false by done. by rewrite IH.
Qed.

End Active.

(** X11.  [activate] never puts a name into [active] twice and leaves the
    groups alone: a duplicate-free [active] stays duplicate-free, names
    already active stay, the name of an existing group is active
    afterwards, and a second [activate] changes nothing. *)
Theorem activate_keeps_active_duplicate_free (o : Options) (st : Store) :
  NoDup (active st) →
  NoDup (active (activate o st))
  ∧ groups (activate o st) = groups st
  ∧ (∀ x, x ∈ active st → x ∈ active (activate o st))
  ∧ (∀ g, opt_group o = Some g → is_Some (groups st !! g) →
          g ∈ active (activate o st))
  ∧ activate o (activate o st) = activate o st.
Proof.
  intros Hnd. unfold activate.
  destruct (opt_group o) as [g|] eqn:Hg; [|by repeat split].
  destruct (bool_decide_reflect (g ∈ active st)) as [Hin|Hin]; simpl.
  { rewrite (bool_decide_true (g ∈ active st)) by done. simpl.
    repeat split; try done. by intros g' [= <-] _. }
  destruct (bool_decide_reflect (is_Some (groups st !! g))) as [Hex|Hex]; simpl.
  - rewrite (bool_decide_true (g ∈ active st ++ [g])).
    2:{ apply elem_of_app. right. left. }
    simpl. split; [|split; [done|split; [|split; [|done]]]].
    + apply NoDup_app. split; [done|]. split; [|apply NoDup_singleton].
      intros x Hx Hx'%list_elem_of_singleton. by subst.
    + intros x Hx. apply elem_of_app. by left.
    + intros g' [= <-] _. apply elem_of_app. right. left.
  - rewrite (bool_decide_false (g ∈ active st)) by done.
    rewrite (bool_decide_false (is_Some (groups st !! g))) by done. simpl.
    repeat split; try done. intros g' [= <-] Hex'. by destruct Hex.
Qed.

(** [activate] of "default", which is active in the initial store. *)
Lemma activate_keeps_active_duplicate_free_default :
  active (activate (with_group "default") initial_store) = ["default"%string].
Proof.
  destruct (activate_keeps_active_duplicate_free (with_group "default")
              initial_store) as (_ & _ & _ & _ & H).
  { apply NoDup_singleton. }
  reflexivity.
Defined.

(** X12.  On a duplicate-free [active], [deactivate] of an existing group
    takes its name out and nothing else: the other names and all groups are
    kept, and the synthesis afterwards returns exactly the domains of the
    other active groups that are live. *)
Theorem deactivate_removes_the_name (st : Store) (g : string) :
  NoDup (active st) → is_Some (groups st !! g) →
  let st' := deactivate (with_group g) st in
  (g ∉ active st')
  ∧ NoDup (active st')
  ∧ groups st' = groups st
  ∧ (∀ x, x ≠ g → (x ∈ active st' ↔ x ∈ active st))
  ∧ ∀ now,
      (∀ name g', name ∈ active st → name ≠ g → groups st !! name = Some g' →
                  ∃ b, is_live st name now = Ok b) →
      ∃ ds, synthesize st' now = Ok ds
            ∧ ∀ d, d ∈ ds ↔
                   ∃ name g', name ≠ g ∧ name ∈ active st
                              ∧ groups st !! name = Some g'
                              ∧ is_live st name now = Ok true ∧ d ∈ domains g'.
Proof.
  intros Hnd Hex st'.
  assert (Hact : ∀ x, x ∈ active st' ↔ x ∈ active st ∧ x ≠ g).
  { intros x. unfold st', deactivate. simpl.
    rewrite (bool_decide_true (is_Some (groups st !! g))) by done.
    case_bool_decide as Hin; simpl.
    - by apply elem_of_list_remove_NoDup.
    - split; [|by intros [? _]]. intros Hx. split; [done|]. by intros ->. }
  assert (Hgs : groups st' = groups st).
  { unfold st', deactivate. simpl. by destruct (_ && _). }
  assert (Hnd' : NoDup (active st')).
  { unfold st', deactivate. simpl. destruct (_ && _); [|done]. simpl.
    by apply NoDup_list_remove. }
  split; [rewrite Hact; by intros [_ ?]|]. split; [done|]. split; [done|].
  split; [intros x Hx; rewrite Hact; by split; [intros [? _]|]|].
  intros now Hlive.
  destruct (collect_domains_spec st' now (active st') ∅)
    as (found & Hfound & Hiff).
  { intros name g' Hname Hg'. apply Hact in Hname as [Hname Hn].
    rewrite (is_live_groups st st' _ _ Hgs). rewrite Hgs in Hg'.
    by apply (Hlive name g'). }
  destruct (render_list found) as (Hmem & _).
  exists (render found).1. split.
  { unfold synthesize, update_hosts. by rewrite Hfound. }
  intros d. rewrite Hmem, Hiff. split.
  - intros [Hd|(name & g' & Hname & Hg' & Hl & Hd)]; [by apply not_elem_of_empty in Hd|].
    apply Hact in Hname as [Hname Hn]. exists name, g'.
    rewrite Hgs in Hg'. rewrite (is_live_groups st st' _ _ Hgs) in Hl. done.
  - intros (name & g' & Hn & Hname & Hg' & Hl & Hd). right. exists name, g'.
    rewrite Hgs, (is_live_groups st st' _ _ Hgs), Hact. done.
Qed.

(** The scenario group deactivated on a Monday at 10. *)
Lemma deactivate_removes_the_name_work :
  let work := mkGroup ["9-17"] ["foo.com"; "example.com"] ["Monday"] in
  let st := mkStore ["default"; "work"]
              {[ "default" := new_group; "work" := work ]} in
  synthesize st (mkInstant 10 0) = Ok ["example.com"; "foo.com"]%string
  ∧ active (deactivate (with_group "work") st) = ["default"%string]
  ∧ synthesize (deactivate (with_group "work") st) (mkInstant 10 0) = Ok [].
Proof.
  intros work st. split; [reflexivity|].
  destruct (deactivate_removes_the_name st "work") as (_ & _ & _ & _ & H).
  { simpl. apply NoDup_cons. split; [|apply NoDup_singleton].
    intros Hx%list_elem_of_singleton. discriminate Hx. }
  { by eexists. }
  split; reflexivity.
Defined.

(** X13.  [deactivate] undoes [activate]: for an existing group whose
    name is not active, activating and then deactivating it gives back the
    store that was there. *)
Theorem deactivate_undoes_activate (st : Store) (g : string) :
  g ∉ active st → is_Some (groups st !! g) →
  g ∈ active (activate (with_group g) st)
  ∧ deactivate (with_group g) (activate (with_group g) st) = st.
Proof.
  intros Hin Hex.
  assert (Ha : activate (with_group g) st = mkStore (active st ++ [g]) (groups st)).
  { unfold activate. simpl.
    rewrite (bool_decide_false (g ∈ active st)) by done.
    by rewrite (bool_decide_true (is_Some (groups st !! g))) by done. }
  rewrite Ha. split; [apply elem_of_app; right; left|].
  unfold deactivate. simpl.
  rewrite (bool_decide_true (g ∈ active st ++ [g])).
  2:{ apply elem_of_app. right. left. }
  rewrite (bool_decide_true (is_Some (groups st !! g))) by done. simpl.
  rewrite list_remove_app_last by done. by destruct st.
Qed.

(** A group that is present but not active. *)
Lemma deactivate_undoes_activate_idle :
  let st := mkStore ["default"]
              {[ "default" := new_group; "idle" := new_group ]} in
  deactivate (with_group "idle") (activate (with_group "idle") st) = st.
Proof.
  intros st.
  apply (deactivate_undoes_activate st "idle").
  - intros Hx%list_elem_of_singleton. discriminate Hx.
  - by eexists.
Defined.

(** ** update_hosts, continued *)

(** X14.  The synthesis looks at [active] as a set: two documents with the
    same groups whose [active] lists hold the same names, in whatever order
    and however often, give the same domain list and the same body. *)
Theorem synthesis_ignores_order_and_repeats (st1 st2 : Store) (now : Instant) :
  groups st1 = groups st2 →
  (∀ x, x ∈ active st1 ↔ x ∈ active st2) →
  (∀ name g, name ∈ active st1 → groups st1 !! name = Some g →
             ∃ b, is_live st1 name now = Ok b) →
  ∃ r, update_hosts st1 now = Ok r ∧ update_hosts st2 now = Ok r.
Proof.
  intros Hgs Hact Hlive.
  destruct (collect_domains_spec st1 now (active st1) ∅ Hlive)
    as (found1 & Hfound1 & Hiff1).
  destruct (collect_domains_spec st2 now (active st2) ∅)
    as (found2 & Hfound2 & Hiff2).
  { intros name g Hname Hg. rewrite (is_live_groups st1 st2) by done.
    apply (Hlive name g); [by apply Hact|by rewrite Hgs]. }
  assert (found1 = found2) as <-.
  { apply set_eq. intros d. rewrite Hiff1, Hiff2.
    split; (intros [Hd|(name & g & Hname & Hg & Hl & Hd)]; [by left|]);
      right; exists name, g.
    - rewrite <- Hact, <- Hgs. by rewrite (is_live_groups st1 st2).
    - rewrite Hact, Hgs. by rewrite <- (is_live_groups st1 st2). }
  exists (render found1). unfold update_hosts. by rewrite Hfound1, Hfound2.
Qed.

(** An [active] list with a repeated name against the list without it. *)
Lemma synthesis_ignores_order_and_repeats_default :
  let g := mkGroup ["*"] ["foo.com"; "example.com"] ["*"] in
  let work := mkGroup ["9-17"] ["work.org"] ["Monday"] in
  let gs : gmap string Group := {[ "default" := g; "work" := work ]} in
  ∃ r, update_hosts (mkStore ["default"; "work"; "default"] gs) (mkInstant 10 0) = Ok r
       ∧ update_hosts (mkStore ["work"; "default"] gs) (mkInstant 10 0) = Ok r.
Proof.
  intros g work gs.
  apply (synthesis_ignores_order_and_repeats
           (mkStore ["default"; "work"; "default"] gs)
           (mkStore ["work"; "default"] gs) (mkInstant 10 0)).
  - reflexivity.
  - intros x. simpl. rewrite !elem_of_cons. rewrite !elem_of_nil. tauto.
  - intros name g' Hname Hg'. unfold is_live. rewrite Hg'. simpl in Hg'.
    apply lookup_insert_Some in Hg' as [[_ <-]|[_ Hg']]; [by eexists|].
    apply lookup_singleton_Some in Hg' as [_ <-]. by eexists.
Defined.

(** X15.  When every active group that exists is not live, or has no
    domains, nothing is blocked: the domain list and the body are empty,
    whatever the groups that are not active hold. *)
Theorem nothing_live_gives_empty_body (st : Store) (now : Instant) :
  (∀ name g, name ∈ active st → groups st !! name = Some g →
             is_live st name now = Ok false
             ∨ (is_live st name now = Ok true ∧ domains g = [])) →
  update_hosts st now = Ok ([], EmptyString)
  ∧ synthesize st now = Ok [].
Proof.
  intros Hdead.
  destruct (collect_domains_spec st now (active st) ∅)
    as (found & Hfound & Hiff).
  { intros name g Hname Hg.
    destruct (Hdead name g Hname Hg) as [H|[H _]]; by eexists. }
  assert (found = ∅) as ->.
  { apply set_eq. intros d. rewrite Hiff. split; [|by left].
    intros [Hd|(name & g & Hname & Hg & Hl & Hd)]; [done|].
    destruct (Hdead name g Hname Hg) as [H|[_ H]]; [congruence|].
    rewrite H in Hd. by apply elem_of_nil in Hd. }
  unfold synthesize, update_hosts. by rewrite Hfound.
Qed.

(** The scenario group on a Monday at 17, with an inactive wildcard
    group. *)
Lemma nothing_live_gives_empty_body_work :
  let work := mkGroup ["9-17"] ["foo.com"; "example.com"] ["Monday"] in
  let idle := mkGroup ["*"] ["idle.org"] ["*"] in
  update_hosts (mkStore ["work"] {[ "work" := work; "idle" := idle ]})
    (mkInstant 17 0) = Ok ([], EmptyString).
Proof.
  intros work idle.
  apply (nothing_live_gives_empty_body
           (mkStore ["work"] {[ "work" := work; "idle" := idle ]}) (mkInstant 17 0)).
  intros name g Hname Hg. left. simpl in Hname.
  apply list_elem_of_singleton in Hname as ->. reflexivity.
Defined.

(** X16.  [empty] changes one field of one group and nothing else:
    [active] is kept, every group other than the one named by the
    lower-cased group option is kept, and the group named, when it exists,
    has the field named by [--empty] set to the empty list and its other
    two fields as they were; without a group option, or when it names no
    group, the store is left as it is. *)
Theorem empty_touches_one_field (o : Options) (st : Store) :
  active (empty o st) = active st
  ∧ (∀ name, (∀ g, opt_group o = Some g → name ≠ lower g) →
             groups (empty o st) !! name = groups st !! name)
  ∧ (∀ g group, opt_group o = Some g → truthy (Some g) = true →
       groups st !! lower g = Some group →
       ∃ group',
         groups (empty o st) !! lower g = Some group'
         ∧ hours group'
           = match opt_empty o with Some FHours => [] | _ => hours group end
         ∧ days group'
           = match opt_empty o with Some FDays => [] | _ => days group end
         ∧ domains group'
           = match opt_empty o with Some FDomains => [] | _ => domains group end)
  ∧ (∀ g, opt_group o = Some g → groups st !! lower g = None → empty o st = st)
  ∧ (truthy (opt_group o) = false → empty o st = st).
Proof.
  unfold empty. destruct (opt_group o) as [x|] eqn:Hx.
  2:{ split; [done|]. split; [done|]. split; [by intros g group [=]|].
      split; [by intros g [=]|done]. }
  destruct (truthy (Some x)) eqn:Ht.
  2:{ split; [done|]. split; [done|].
      split; [intros g group [= <-] Ht'; congruence|]. done. }
  destruct (groups st !! lower x) as [group0|] eqn:Hl.
  2:{ split; [done|]. split; [done|].
      split; [intros g group [= <-] _; congruence|].
      split; [done|]. intros Hf. congruence. }
  cbn [active groups]. split; [done|]. split.
  - intros name Hn. rewrite lookup_insert_ne; [done|]. intros <-.
    by apply (Hn x).
  - split; [|split].
    + intros g group [= <-] _ Hg. rewrite Hl in Hg. injection Hg as <-.
      rewrite lookup_insert_eq.
      eexists. split; [done|]. by destruct (opt_empty o) as [[]|].
    + intros g [= <-] Hnone. congruence.
    + intros Hf. congruence.
Qed.

(** ** remove *)

Section Remove.

Lemma remove_group_frame name command w rest :
  let r := end_state (remove_group name command w rest) in
  r.2 = rest
  ∧ active (w_data r.1) = active (w_data w)
  ∧ (∀ x, x ≠ name → groups (w_data r.1) !! x = groups (w_data w) !! x)
  ∧ (w_saved r.1 = w_saved w ∨ w_saved r.1 = Some (w_data r.1)).
Proof.
  unfold remove_group.
  case_bool_decide; [simpl; tauto|]. case_bool_decide; [simpl; tauto|].
  destruct (groups (w_data w) !! name); simpl; [|tauto].
  split; [done|]. split; [done|]. split; [|by right].
  intros x Hx. by rewrite lookup_delete_ne.
Qed.

Lemma remove_unfold o inputs w :
  remove o inputs w =
  match opt_group o with
  | None => Returned (w, inputs)
  | Some g =>
      if negb (truthy (Some g)) then Returned (w, inputs)
      else
        match groups (w_data w) !! lower g with
        | None => Returned (w, inputs)
        | Some group =>
            if negb (truthy (opt_day o) || truthy (opt_domain o)
                     || truthy (opt_hour o))
            then
              match inputs with
              | [] => Crashed EOFError (w, [])
              | answer :: rest =>
                  if answer_known (lower answer)
                  then remove_group (lower g) (lower answer) w rest
                  else
                    match remove o rest w with
                    | Returned (w1, rest1) =>
                        remove_group (lower g) (lower answer) w1 rest1
                    | stopped => stopped
                    end
              end
            else
              let st := mkStore (active (w_data w))
                          (<[lower g := remove_fields o group]> (groups (w_data w))) in
              Returned (mkWorld st (Some st) true, inputs)
        end
  end.
Proof. by destruct inputs. Qed.

(** [remove_group] changes the document only together with a save. *)
Lemma remove_group_saved name command w rest :
  w_saved w = Some (w_data w) →
  let r := end_state (remove_group name command w rest) in
  w_saved r.1 = Some (w_data r.1).
Proof.
  intros Hs. unfold remove_group.
  case_bool_decide; [done|]. case_bool_decide; [done|].
  by destruct (groups (w_data w) !! name).
Qed.

End Remove.

(** X17.  However a run of [remove] ends (it returns, exits or crashes),
    it has read a prefix of the answers, has not changed [active] (the name
    of a deleted group stays in it), has not touched any group other than
    the one named, and the document it saved last, if it saved, is the one
    in memory. *)
Theorem remove_leaves_the_rest_alone (o : Options) (inputs : list string) (w : World) :
  let r := end_state (remove o inputs w) in
  (∃ read, inputs = read ++ r.2)
  ∧ active (w_data r.1) = active (w_data w)
  ∧ (∀ x, (∀ g, opt_group o = Some g → x ≠ lower g) →
          groups (w_data r.1) !! x = groups (w_data w) !! x)
  ∧ (w_saved r.1 = w_saved w ∨ w_saved r.1 = Some (w_data r.1)).
Proof.
  revert w. induction inputs as [|answer rest IH]; intros w;
    rewrite remove_unfold;
    (destruct (opt_group o) as [g|] eqn:Hg;
       [|split; [by exists []|]; split; [done|]; split; [done|by left]]);
    (destruct (negb (truthy (Some g)));
       [split; [by exists []|]; split; [done|]; split; [done|by left]|]);
    (destruct (groups (w_data w) !! lower g) as [group|];
       [|split; [by exists []|]; split; [done|]; split; [done|by left]]);
    (destruct (negb (truthy (opt_day o) || truthy (opt_domain o)
                     || truthy (opt_hour o)))).
  - split; [by exists []|]. split; [done|]. split; [done|by left].
  - split; [by exists []|]. split; [done|]. split; [|by right].
    intros x Hx. cbn. rewrite lookup_insert_ne; [done|]. intros <-. by apply (Hx g).
  - destruct (answer_known (lower answer)).
    + destruct (remove_group_frame (lower g) (lower answer) w rest)
        as (Hr & Ha & Hgs & Hs).
      split; [exists [answer]; by rewrite Hr|]. split; [done|]. split; [|done].
      intros x Hx. apply Hgs. by apply Hx.
    + specialize (IH w).
      destruct (remove o rest w) as [[w1 rest1]|code [w1 rest1]|e [w1 rest1]];
        destruct IH as ([read Hread] & Ha & Hgs & Hs).
      * destruct (remove_group_frame (lower g) (lower answer) w1 rest1)
          as (Hr & Ha' & Hgs' & Hs').
        split; [exists (answer :: read); rewrite Hr; cbn in *; by f_equal|].
        split; [cbn in *; congruence|]. split.
        -- intros x Hx. rewrite Hgs' by (by apply Hx). by apply Hgs.
        -- cbn in Hs. destruct Hs as [Hs|Hs].
           ++ destruct Hs' as [Hs'|Hs']; [left; congruence|by right].
           ++ right. by apply remove_group_saved.
      * split; [exists (answer :: read); cbn in *; by f_equal|]. done.
      * split; [exists (answer :: read); cbn in *; by f_equal|]. done.
  - split; [by exists []|]. split; [done|]. split; [|by right].
    intros x Hx. cbn. rewrite lookup_insert_ne; [done|]. intros <-. by apply (Hx g).
Qed.

Section RemoveAnswers.

Lemma unknown_answer c :
  answer_known c = false → c ≠ "quit"%string ∧ c ≠ "n"%string.
Proof. intros H. split; intros ->; discriminate H. Qed.

(** The prompt is reached: a group that exists and no field argument. *)
Lemma remove_prompt o g group answer rest w :
  opt_group o = Some g → truthy (Some g) = true →
  groups (w_data w) !! lower g = Some group →
  truthy (opt_day o) = false → truthy (opt_domain o) = false →
  truthy (opt_hour o) = false →
  remove o (answer :: rest) w =
  if answer_known (lower answer)
  then remove_group (lower g) (lower answer) w rest
  else
    match remove o rest w with
    | Returned (w1, rest1) => remove_group (lower g) (lower answer) w1 rest1
    | stopped => stopped
    end.
Proof.
  intros Hg Ht Hgroup Hd Hm Hh. rewrite remove_unfold.
  by rewrite Hg, Ht, Hgroup, Hd, Hm, Hh.
Qed.

End RemoveAnswers.

(** X18.  At the prompt of [remove] (an existing group, no field
    argument) the answer is lower-cased and only its beginning is matched:
    "quit" exits, "n" returns with nothing changed, and every other answer
    that begins with "y", "n" or "quit" (so also "no") deletes the group
    and saves the document, with [active] as it was. *)
Theorem remove_answer_decides
    (o : Options) (g : string) (group : Group) (answer : string)
    (rest : list string) (w : World) :
  opt_group o = Some g → truthy (Some g) = true →
  groups (w_data w) !! lower g = Some group →
  truthy (opt_day o) = false → truthy (opt_domain o) = false →
  truthy (opt_hour o) = false →
  answer_known (lower answer) = true →
  remove o (answer :: rest) w =
  if bool_decide (lower answer = "quit"%string) then Exited 0 (w, rest)
  else if bool_decide (lower answer = "n"%string) then Returned (w, rest)
  else
    let st := mkStore (active (w_data w)) (delete (lower g) (groups (w_data w))) in
    Returned (mkWorld st (Some st) true, rest).
Proof.
  intros Hg Ht Hgroup Hd Hm Hh Hk.
  rewrite (remove_prompt o g group) by done. rewrite Hk.
  unfold remove_group. by rewrite Hgroup.
Qed.

(** The answer "No" to the prompt for the group "work". *)
Lemma remove_answer_decides_no :
  let work := mkGroup ["9-17"] ["example.com"] ["Monday"] in
  let st := mkStore ["default"; "work"]
              {[ "default" := new_group; "work" := work ]} in
  remove (with_group "Work") ["No"%string] (mkWorld st None false)
  = Returned
      (mkWorld (mkStore ["default"; "work"] (delete "work" (groups st)))
         (Some (mkStore ["default"; "work"] (delete "work" (groups st)))) true,
       []).
Proof.
  intros work st.
  apply (remove_answer_decides (with_group "Work") "Work" work "No" []
           (mkWorld st None false)); reflexivity.
Defined.

(** X19.  After an answer that is not recognized [remove] asks again by
    calling itself, and then goes on with the first answer: if the second
    answer is "n" the group is deleted all the same; if the second answer
    confirms, the group is deleted and saved by the inner call and the
    outer [del] raises KeyError; only "quit" leaves the document alone. *)
Theorem remove_goes_on_after_asking_again
    (o : Options) (g : string) (group : Group) (a1 a2 : string)
    (rest : list string) (w : World) :
  opt_group o = Some g → truthy (Some g) = true →
  groups (w_data w) !! lower g = Some group →
  truthy (opt_day o) = false → truthy (opt_domain o) = false →
  truthy (opt_hour o) = false →
  answer_known (lower a1) = false → answer_known (lower a2) = true →
  remove o (a1 :: a2 :: rest) w =
  let st := mkStore (active (w_data w)) (delete (lower g) (groups (w_data w))) in
  if bool_decide (lower a2 = "quit"%string) then Exited 0 (w, rest)
  else if bool_decide (lower a2 = "n"%string)
       then Returned (mkWorld st (Some st) true, rest)
       else Crashed KeyError (mkWorld st (Some st) true, rest).
Proof.
  intros Hg Ht Hgroup Hd Hm Hh Hk1 Hk2.
  rewrite (remove_prompt o g group) by done. rewrite Hk1.
  rewrite (remove_prompt o g group a2) by done. rewrite Hk2.
  destruct (unknown_answer _ Hk1) as [Hq Hn].
  assert (Hinner : remove_group (lower g) (lower a2) w rest =
    if bool_decide (lower a2 = "quit"%string) then Exited 0 (w, rest)
    else if bool_decide (lower a2 = "n"%string) then Returned (w, rest)
    else
      let st := mkStore (active (w_data w)) (delete (lower g) (groups (w_data w))) in
      Returned (mkWorld st (Some st) true, rest)).
  { unfold remove_group. by rewrite Hgroup. }
  rewrite Hinner.
  case_bool_decide; [done|]. case_bool_decide.
  - unfold remove_group. rewrite bool_decide_false by done.
    rewrite bool_decide_false by done. by rewrite Hgroup.
  - unfold remove_group. rewrite bool_decide_false by done.
    rewrite bool_decide_false by done. cbn. by rewrite lookup_delete_eq.
Qed.

(** The answers "maybe" and then "n". *)
Lemma remove_goes_on_after_asking_again_maybe_n :
  let work := mkGroup ["9-17"] ["example.com"] ["Monday"] in
  let st := mkStore ["work"] {[ "work" := work ]} in
  ∃ w', remove (with_group "work") ["maybe"; "n"]%string (mkWorld st None false)
        = Returned (w', [])
        ∧ groups (w_data w') !! "work"%string = None.
Proof.
  intros work st. eexists. split.
  - apply (remove_goes_on_after_asking_again (with_group "work") "work" work
             "maybe" "n" [] (mkWorld st None false)); reflexivity.
  - reflexivity.
Defined.

(** X20.  [remove] looks for the domain as it was typed, while [add]
    stored it normalized: removing with the argument that was added takes
    the domain out again only when the argument was in normalized form
    already; otherwise the normalized domain stays in the group. *)
Theorem remove_domain_as_typed
    (st : Store) (d : string) (g0 : Group) (inputs : list string) :
  groups st !! "default"%string = Some g0 →
  truthy (Some d) = true → d ∉ domains g0 →
  ∃ st1 w2,
    add (with_domain d) st = Ok st1
    ∧ remove (with_group_domain "default" d) inputs (mkWorld st1 None false)
      = Returned (w2, inputs)
    ∧ w_saved w2 = Some (w_data w2)
    ∧ groups (w_data w2) !! "default"%string
      = Some (if bool_decide (normalize_domain d = d) then g0
              else set_domains g0 (domains g0 ++ [normalize_domain d])).
Proof.
  intros Hg Ht Hd.
  assert (H0 : add_create (with_domain d) (groups st)
               !! add_groupname (with_domain d) = Some g0) by done.
  pose proof (add_Ok _ _ _ H0) as Hadd.
  change (add_groupname (with_domain d)) with "default"%string in Hadd.
  change (add_create (with_domain d) (groups st)) with (groups st) in Hadd.
  change (domain_step (with_domain d)
            (days_step (with_domain d) (hours_step (with_domain d) g0)))
    with (if truthy (Some d)
          then set_domains g0 (domains g0 ++ [normalize_domain d]) else g0) in Hadd.
  rewrite Ht in Hadd.
  eexists _, _. split; [exact Hadd|].
  rewrite remove_unfold.
  change (opt_group (with_group_domain "default" d)) with (Some "default"%string).
  change (truthy (Some "default"%string)) with true.
  change (lower "default") with "default"%string.
  cbn [negb w_data groups]. rewrite lookup_insert_eq.
  change (truthy (opt_day (with_group_domain "default" d))) with false.
  change (truthy (opt_hour (with_group_domain "default" d))) with false.
  change (opt_domain (with_group_domain "default" d)) with (Some d).
  rewrite Ht. cbn [orb negb].
  split; [reflexivity|]. split; [reflexivity|].
  cbn [w_data groups]. rewrite lookup_insert_eq. f_equal.
  unfold remove_fields, remove_value. cbn.
  destruct (decide (normalize_domain d = d)) as [Hn|Hn].
  - rewrite (bool_decide_true (normalize_domain d = d)) by done. rewrite Hn.
    rewrite bool_decide_true by (apply elem_of_app; right; left).
    rewrite list_remove_app_last by done. by destruct g0.
  - rewrite (bool_decide_false (normalize_domain d = d)) by done.
    rewrite bool_decide_false; [done|].
    intros [?|Hx%list_elem_of_singleton]%elem_of_app; [done|]. by destruct Hn.
Qed.

(** The argument "Example.com" is stored as "example.com" and not found
    again. *)
Lemma remove_domain_as_typed_example :
  ∃ st1 w2,
    add (with_domain "Example.com") initial_store = Ok st1
    ∧ remove (with_group_domain "default" "Example.com") []
        (mkWorld st1 None false) = Returned (w2, [])
    ∧ groups (w_data w2) !! "default"%string
      = Some (mkGroup ["*"] ["example.com"] ["*"])%string.
Proof.
  destruct (remove_domain_as_typed initial_store "Example.com" new_group [])
    as (st1 & w2 & Hadd & Hrem & _ & Hg).
  - reflexivity.
  - reflexivity.
  - intros Hx. by apply elem_of_nil in Hx.
  - exists st1, w2. split; [exact Hadd|]. split; [exact Hrem|]. exact Hg.
Defined.

(** X21.  A group deleted by [remove] stays in [active]: its name then
    names no group, so it is not live and blocks nothing, [deactivate]
    cannot take it out any more, and an [add] that creates the group again
    puts the name into [active] a second time. *)
Theorem removed_group_stays_active
    (o : Options) (g : string) (group : Group) (answer : string)
    (rest : list string) (w : World) :
  opt_group o = Some g → truthy (Some g) = true →
  groups (w_data w) !! lower g = Some group →
  truthy (opt_day o) = false → truthy (opt_domain o) = false →
  truthy (opt_hour o) = false →
  answer_known (lower answer) = true →
  lower answer ≠ "quit"%string → lower answer ≠ "n"%string →
  lower g ∈ active (w_data w) →
  ∃ w',
    remove o (answer :: rest) w = Returned (w', rest)
    ∧ lower g ∈ active (w_data w')
    ∧ groups (w_data w') !! lower g = None
    ∧ deactivate (with_group (lower g)) (w_data w') = w_data w'
    ∧ (∀ now, is_live (w_data w') (lower g) now = Ok false)
    ∧ ∃ st'', add (with_group g) (w_data w') = Ok st''
              ∧ (2 ≤ count_occ string_dec (active st'') (lower g))%nat.
Proof.
  intros Hg Ht Hgroup Hd Hm Hh Hk Hq Hn Hact.
  rewrite (remove_prompt o g group) by done. rewrite Hk.
  unfold remove_group. rewrite bool_decide_false by done.
  rewrite bool_decide_false by done. rewrite Hgroup.
  eexists. split; [done|]. cbn [w_data active groups].
  assert (Hnone : delete (lower g) (groups (w_data w)) !! lower g = None)
    by apply lookup_delete_eq.
  split; [done|]. split; [done|]. split.
  { unfold deactivate. cbn. rewrite Hnone.
    rewrite (bool_decide_false (is_Some None)) by (by intros [? ?]).
    by rewrite andb_false_r. }
  split.
  { intros now. apply is_live_missing. exact Hnone. }
  set (st' := mkStore (active (w_data w)) (delete (lower g) (groups (w_data w)))).
  assert (Hname : add_groupname (with_group g) = lower g).
  { change (add_groupname (with_group g))
      with (if truthy (Some g) then lower g else "default"%string).
    by rewrite Ht. }
  destruct (add_create_named (with_group g) Ht (groups st')) as [g0 H0].
  eexists. split; [by apply add_Ok|]. cbn [active]. rewrite Hname.
  rewrite count_occ_app. cbn.
  apply count_occ_elem_of in Hact.
  destruct (string_dec (lower g) (lower g)); [lia|done].
Qed.

(** The group "work" removed with the answer "y". *)
Lemma removed_group_stays_active_work :
  let work := mkGroup ["9-17"] ["example.com"] ["Monday"] in
  let st := mkStore ["default"; "work"]
              {[ "default" := new_group; "work" := work ]} in
  ∃ w', remove (with_group "work") ["y"%string] (mkWorld st None false)
        = Returned (w', [])
        ∧ active (w_data w') = ["default"; "work"]%string
        ∧ groups (w_data w') !! "work"%string = None.
Proof.
  intros work st.
  destruct (removed_group_stays_active (with_group "work") "work" work "y" []
              (mkWorld st None false)) as (w' & Hrem & _ & Hnone & _);
    [reflexivity|reflexivity|reflexivity|reflexivity|reflexivity|reflexivity
    |reflexivity|discriminate|discriminate| |].
  - apply elem_of_cons. right. left.
  - exists w'. split; [exact Hrem|]. split; [|exact Hnone].
    vm_compute in Hrem. by injection Hrem as <-.
Defined.

(** ** The hosts files *)

Section HostsFiles.

Lemma exists_file_true path fs c :
  contents fs !! path = Some c → exists_file path fs = true.
Proof. intros H. unfold exists_file. rewrite H. by apply bool_decide_true. Qed.

Lemma exists_file_false path fs :
  contents fs !! path = None → exists_file path fs = false.
Proof.
  intros H. unfold exists_file. rewrite H. apply bool_decide_false.
  by intros [? ?].
Qed.

(** What [copy2] does when it succeeds. *)
Lemma copy2_Some src dst fs fs' :
  copy2 src dst fs = Some fs' →
  ∃ text, contents fs !! src = Some text
          ∧ fs' = mkFiles (<[dst := text]> (contents fs)) (unreadable fs)
                    (unwritable fs).
Proof.
  unfold copy2, read_file, write_file.
  repeat case_bool_decide; destruct (contents fs !! src) as [text|]; simpl;
    try discriminate.
  intros [= <-]. by exists text.
Qed.

Lemma copy2_free src dst fs text :
  contents fs !! src = Some text → unreadable fs = ∅ → unwritable fs = ∅ →
  copy2 src dst fs
  = Some (mkFiles (<[dst := text]> (contents fs)) (unreadable fs) (unwritable fs)).
Proof.
  intros Hs Hr Hw. unfold copy2, read_file, write_file. rewrite Hr, Hw.
  rewrite bool_decide_false by set_solver. rewrite Hs. simpl.
  by rewrite bool_decide_false by set_solver.
Qed.

(** Once the three files are there, [_init_hosts] changes nothing. *)
Lemma init_hosts_bootstrapped fs h o t :
  contents fs !! hosts_file = Some h →
  contents fs !! hosts_file_original = Some o →
  contents fs !! hosts_file_template = Some t →
  _init_hosts fs = Returned fs.
Proof.
  intros Hh Ho Ht. unfold _init_hosts.
  rewrite (exists_file_true _ _ _ Hh), (exists_file_true _ _ _ Ho). simpl.
  by rewrite (exists_file_true _ _ _ Ht).
Qed.

End HostsFiles.

(** X22.  [_init_hosts] never overwrites: however it ends, every file that
    was there has the content it had, the only files it can have created
    are the original and the template, and the protection of the files is
    unchanged; without a hosts file it exits with status 1 at once; and a
    run that returns leaves all three files in place, so that a second run
    changes nothing. *)
Theorem init_hosts_never_overwrites (fs : Files) :
  let fs' := end_state (_init_hosts fs) in
  (∀ path c, contents fs !! path = Some c → contents fs' !! path = Some c)
  ∧ (∀ path, path ≠ hosts_file_original → path ≠ hosts_file_template →
             contents fs' !! path = contents fs !! path)
  ∧ unreadable fs' = unreadable fs ∧ unwritable fs' = unwritable fs
  ∧ (contents fs !! hosts_file = None → _init_hosts fs = Exited 1 fs)
  ∧ (_init_hosts fs = Returned fs' →
       is_Some (contents fs' !! hosts_file)
       ∧ is_Some (contents fs' !! hosts_file_original)
       ∧ is_Some (contents fs' !! hosts_file_template)
       ∧ _init_hosts fs' = Returned fs').
Proof.
  unfold _init_hosts.
  destruct (contents fs !! hosts_file) as [h|] eqn:Hh.
  2:{ rewrite (exists_file_false _ _ Hh). simpl. repeat split; try done;
      try discriminate. }
  rewrite (exists_file_true _ _ _ Hh). cbn [negb].
  assert (Hstep1 : ∃ r1,
    (if negb (exists_file hosts_file_original fs)
     then copy2 hosts_file hosts_file_original fs else Some fs) = r1
    ∧ ∀ fs1, r1 = Some fs1 →
        (∀ path c, contents fs !! path = Some c → contents fs1 !! path = Some c)
        ∧ (∀ path, path ≠ hosts_file_original →
                   contents fs1 !! path = contents fs !! path)
        ∧ unreadable fs1 = unreadable fs ∧ unwritable fs1 = unwritable fs
        ∧ is_Some (contents fs1 !! hosts_file_original)).
  { eexists. split; [done|]. intros fs1.
    destruct (contents fs !! hosts_file_original) as [o|] eqn:Ho.
    - rewrite (exists_file_true _ _ _ Ho). intros [= <-]. by rewrite Ho.
    - rewrite (exists_file_false _ _ Ho). intros (text & _ & ->)%copy2_Some.
      cbn. split; [|split; [|by rewrite lookup_insert_eq]].
      + intros path c Hc. rewrite lookup_insert_ne; [done|]. intros <-. congruence.
      + intros path Hp. by rewrite lookup_insert_ne. }
  destruct Hstep1 as (r1 & -> & H1). destruct r1 as [fs1|].
  2:{ cbn. repeat split; try done; try discriminate. }
  destruct (H1 fs1 eq_refl) as (Hk1 & Hf1 & Hr1 & Hw1 & [o Ho1]).
  assert (Hstep2 : ∃ r2,
    (if negb (exists_file hosts_file_template fs1)
     then copy2 hosts_file_original hosts_file_template fs1 else Some fs1) = r2
    ∧ ∀ fs2, r2 = Some fs2 →
        (∀ path c, contents fs1 !! path = Some c → contents fs2 !! path = Some c)
        ∧ (∀ path, path ≠ hosts_file_template →
                   contents fs2 !! path = contents fs1 !! path)
        ∧ unreadable fs2 = unreadable fs1 ∧ unwritable fs2 = unwritable fs1
        ∧ is_Some (contents fs2 !! hosts_file_template)).
  { eexists. split; [done|]. intros fs2.
    destruct (contents fs1 !! hosts_file_template) as [t|] eqn:Ht.
    - rewrite (exists_file_true _ _ _ Ht). intros [= <-]. by rewrite Ht.
    - rewrite (exists_file_false _ _ Ht). intros (text & _ & ->)%copy2_Some.
      cbn. split; [|split; [|by rewrite lookup_insert_eq]].
      + intros path c Hc. rewrite lookup_insert_ne; [done|]. intros <-. congruence.
      + intros path Hp. by rewrite lookup_insert_ne. }
  destruct Hstep2 as (r2 & -> & H2). destruct r2 as [fs2|].
  2:{ cbn. split; [done|]. split; [by intros path Hp _; apply Hf1|].
      repeat split; try done; try discriminate. }
  destruct (H2 fs2 eq_refl) as (Hk2 & Hf2 & Hr2 & Hw2 & [t Ht2]).
  cbn. split; [by intros path c Hc; apply Hk2, Hk1|].
  split; [intros path Hp1 Hp2; by rewrite Hf2, Hf1|].
  split; [congruence|]. split; [congruence|]. split; [done|]. intros _.
  pose proof (Hk2 _ _ (Hk1 _ _ Hh)) as Hh2. pose proof (Hk2 _ _ Ho1) as Ho2.
  split; [by eexists|]. split; [by eexists|]. split; [by eexists|].
  by apply (init_hosts_bootstrapped fs2 h o t).
Qed.

Section UpdateRun.

Lemma init_hosts_Returned fs fs1 :
  _init_hosts fs = Returned fs1 →
  is_Some (contents fs1 !! hosts_file)
  ∧ is_Some (contents fs1 !! hosts_file_original)
  ∧ is_Some (contents fs1 !! hosts_file_template)
  ∧ contents fs1 !! hosts_file = contents fs !! hosts_file.
Proof.
  unfold _init_hosts.
  destruct (contents fs !! hosts_file) as [h|] eqn:Hh.
  2:{ by rewrite (exists_file_false _ _ Hh). }
  rewrite (exists_file_true _ _ _ Hh). cbn [negb].
  destruct (contents fs !! hosts_file_original) as [o|] eqn:Ho.
  - rewrite (exists_file_true _ _ _ Ho). cbn [negb].
    destruct (contents fs !! hosts_file_template) as [t|] eqn:Ht.
    + rewrite (exists_file_true _ _ _ Ht). intros [= <-]. by rewrite Hh, Ho, Ht.
    + rewrite (exists_file_false _ _ Ht). cbn [negb].
      destruct (copy2 _ _ fs) as [fs2|] eqn:Hc; [|discriminate].
      apply copy2_Some in Hc as (text & _ & ->). intros [= <-]. cbn.
      rewrite lookup_insert_eq, !lookup_insert_ne by discriminate.
      by rewrite Hh, Ho.
  - rewrite (exists_file_false _ _ Ho). cbn [negb].
    destruct (copy2 _ _ fs) as [fs1'|] eqn:Hc; [|discriminate].
    apply copy2_Some in Hc as (text & _ & ->).
    destruct (exists_file hosts_file_template _) eqn:Et; cbn [negb].
    + intros [= <-]. cbn. rewrite lookup_insert_eq, lookup_insert_ne by discriminate.
      rewrite Hh. split; [done|]. split; [done|].
      unfold exists_file in Et. by apply bool_decide_eq_true in Et.
    + destruct (copy2 _ _ _) as [fs2|] eqn:Hc2; [|discriminate].
      apply copy2_Some in Hc2 as (text2 & _ & ->). intros [= <-]. cbn.
      rewrite lookup_insert_eq, !lookup_insert_ne by discriminate.
      by rewrite lookup_insert_eq, Hh.
Qed.

(** What a run without confirmation that ends in [sys.exit(0)] has done. *)
Lemma update_run_Exited_0 st now inputs fs fs2 :
  update_hosts_run false st now inputs fs = Exited 0 fs2 →
  ∃ fs1 template ds body,
    _init_hosts fs = Returned fs1
    ∧ read_file hosts_file_template fs1 = Some template
    ∧ update_hosts st now = Ok (ds, body)
    ∧ write_file hosts_file ((template +:+ disclaimer) +:+ body) fs1 = Some fs2.
Proof.
  unfold update_hosts_run.
  destruct (_init_hosts fs) as [fs1|code fs1|e fs1] eqn:Hi; try discriminate.
  2:{ intros [= -> <-]. exfalso. revert Hi. unfold _init_hosts.
      destruct (negb _); [discriminate|].
      destruct (if negb _ then _ else _); [|discriminate].
      destruct (if negb _ then _ else _); discriminate. }
  destruct (read_file hosts_file_template fs1) as [template|] eqn:Hr;
    [|discriminate].
  destruct (update_hosts st now) as [[ds body]|e] eqn:Hu; [|discriminate].
  destruct (write_file _ _ fs1) as [fs2'|] eqn:Hw; [|discriminate].
  intros [= <-]. by exists fs1, template, ds, body.
Qed.

End UpdateRun.

(** X23.  Regeneration is idempotent: when an update without confirmation
    has written the hosts file and exited with status 0, the same update
    on the files it left writes the same content and leaves the files as
    they are. *)
Theorem regeneration_is_idempotent
    (st : Store) (now : Instant) (inputs : list string) (fs fs2 : Files) :
  update_hosts_run false st now inputs fs = Exited 0 fs2 →
  update_hosts_run false st now inputs fs2 = Exited 0 fs2.
Proof.
  intros (fs1 & template & ds & body & Hi & Hr & Hu & Hw)%update_run_Exited_0.
  destruct (init_hosts_Returned _ _ Hi) as ([h Hh] & [o Ho] & [t Ht] & _).
  assert (Hfs2 : fs2 = mkFiles (<[hosts_file := (template +:+ disclaimer) +:+ body]>
                                  (contents fs1)) (unreadable fs1) (unwritable fs1)
                 ∧ hosts_file ∉ unwritable fs1).
  { revert Hw. unfold write_file. case_bool_decide; [discriminate|].
    by intros [= <-]. }
  destruct Hfs2 as [-> Hnw].
  unfold update_hosts_run.
  rewrite (init_hosts_bootstrapped _ ((template +:+ disclaimer) +:+ body) o t).
  2:{ cbn. apply lookup_insert_eq. }
  2:{ cbn. by rewrite lookup_insert_ne by discriminate. }
  2:{ cbn. by rewrite lookup_insert_ne by discriminate. }
  assert (read_file hosts_file_template
            (mkFiles (<[hosts_file := (template +:+ disclaimer) +:+ body]>
                        (contents fs1)) (unreadable fs1) (unwritable fs1))
          = Some template) as ->.
  { revert Hr. unfold read_file. cbn. case_bool_decide; [discriminate|].
    by rewrite lookup_insert_ne by discriminate. }
  rewrite Hu. unfold write_file. cbn.
  rewrite bool_decide_false by done. by rewrite insert_insert_eq.
Qed.

(** A first run on a machine with only a hosts file, and the same run
    again. *)
Lemma regeneration_is_idempotent_fresh :
  let fs := mkFiles {[ hosts_file := "127.0.0.1 localhost"%string ]} ∅ ∅ in
  let st := mkStore ["default"]
              {[ "default" := mkGroup ["*"] ["example.com"] ["*"] ]} in
  ∃ fs2, update_hosts_run false st (mkInstant 10 0) [] fs = Exited 0 fs2
         ∧ update_hosts_run false st (mkInstant 10 0) [] fs2 = Exited 0 fs2.
Proof.
  intros fs st. eexists. split; [vm_compute; reflexivity|].
  apply (regeneration_is_idempotent st (mkInstant 10 0) [] fs).
  vm_compute. reflexivity.
Defined.

Section UpdateSequence.

Local Ltac lookup_files :=
  repeat first [rewrite lookup_insert_eq
               |rewrite lookup_insert_ne by discriminate].

(** One update on a machine that is fresh or bootstrapped. *)
Lemma update_run_step fs h st now ds body :
  fresh_files fs h ∨ bootstrapped fs h →
  update_hosts st now = Ok (ds, body) →
  ∃ fs',
    update_hosts_run false st now [] fs = Exited 0 fs'
    ∧ bootstrapped fs' h
    ∧ contents fs' !! hosts_file = Some ((h +:+ disclaimer) +:+ body)
    ∧ ∀ path, path ≠ hosts_file → path ≠ hosts_file_original →
              path ≠ hosts_file_template →
              contents fs' !! path = contents fs !! path.
Proof.
  intros [(Hh & Ho & Ht & Hr & Hw)|([x Hh] & Ho & Ht & Hr & Hw)] Hu.
  - assert (Hi : _init_hosts fs
                 = Returned (mkFiles (<[hosts_file_template := h]>
                                        (<[hosts_file_original := h]> (contents fs)))
                               (unreadable fs) (unwritable fs))).
    { unfold _init_hosts.
      rewrite (exists_file_true _ _ _ Hh), (exists_file_false _ _ Ho).
      cbn [negb]. rewrite (copy2_free _ _ _ h) by done.
      rewrite exists_file_false.
      2:{ cbn. by rewrite lookup_insert_ne by discriminate. }
      cbn [negb]. rewrite (copy2_free _ _ _ h); [done| |done|done].
      cbn. apply lookup_insert_eq. }
    unfold update_hosts_run. rewrite Hi.
    unfold read_file, write_file. cbn [contents unreadable unwritable].
    rewrite Hr, Hw.
    rewrite !bool_decide_false by set_solver.
    assert (Hl : <[hosts_file_template := h]>
                   (<[hosts_file_original := h]> (contents fs))
                 !! hosts_file_template = Some h) by apply lookup_insert_eq.
    rewrite Hl, Hu.
    eexists. split; [done|]. unfold bootstrapped.
    cbn [contents unreadable unwritable]. split.
    { split; [by rewrite lookup_insert_eq|].
      split; [by lookup_files|]. split; [by lookup_files|done]. }
    split; [by rewrite lookup_insert_eq|].
    intros path H1 H2 H3. by rewrite !lookup_insert_ne.
  - unfold update_hosts_run.
    rewrite (init_hosts_bootstrapped fs x h h) by done.
    unfold read_file, write_file. rewrite Hr, Hw.
    rewrite !bool_decide_false by set_solver. rewrite Ht, Hu.
    eexists. split; [done|]. unfold bootstrapped.
    cbn [contents unreadable unwritable]. split.
    { split; [by rewrite lookup_insert_eq|].
      by rewrite !lookup_insert_ne by discriminate. }
    split; [by rewrite lookup_insert_eq|].
    intros path H1 H2 H3. by rewrite lookup_insert_ne.
Qed.

Lemma confirm_first_known inputs :
  confirm inputs =
  match first_known inputs with
  | [] => Crashed EOFError []
  | command :: rest =>
      if bool_decide (command = "quit"%string) || bool_decide (command = "n"%string)
      then Exited 0 rest else Returned rest
  end.
Proof.
  induction inputs as [|command rest IH]; [done|].
  cbn [confirm first_known]. destruct (answer_known command) eqn:Hk; [done|].
  rewrite IH. destruct (first_known rest) as [|c rest1]; [done|].
  destruct (bool_decide (c = "quit"%string) || bool_decide (c = "n"%string));
    [done|].
  destruct (unknown_answer _ Hk) as [Hq Hn].
  by rewrite !bool_decide_false by done.
Qed.

End UpdateSequence.

(** X24.  The original is kept: starting on a machine with only its hosts
    file, after any number of updates that exit with status 0 the original
    and the template still hold the hosts file as it was found, the hosts
    file holds that content, the disclaimer and the body of the last update
    only, and no other file was touched. *)
Theorem original_is_kept_across_updates
    (fs : Files) (h : string) (runs : list (Store * Instant))
    (st : Store) (now : Instant) (ds : list string) (body : string) :
  fresh_files fs h →
  Forall (λ run, ∃ r, update_hosts run.1 run.2 = Ok r) runs →
  update_hosts st now = Ok (ds, body) →
  ∃ fs',
    update_all (runs ++ [(st, now)]) fs = Returned fs'
    ∧ contents fs' !! hosts_file_original = Some h
    ∧ contents fs' !! hosts_file_template = Some h
    ∧ contents fs' !! hosts_file = Some ((h +:+ disclaimer) +:+ body)
    ∧ ∀ path, path ≠ hosts_file → path ≠ hosts_file_original →
              path ≠ hosts_file_template →
              contents fs' !! path = contents fs !! path.
Proof.
  intros Hfresh Hruns Hu.
  assert (Hgen : ∀ fs0, fresh_files fs0 h ∨ bootstrapped fs0 h →
    ∃ fs',
      update_all (runs ++ [(st, now)]) fs0 = Returned fs'
      ∧ bootstrapped fs' h
      ∧ contents fs' !! hosts_file = Some ((h +:+ disclaimer) +:+ body)
      ∧ ∀ path, path ≠ hosts_file → path ≠ hosts_file_original →
                path ≠ hosts_file_template →
                contents fs' !! path = contents fs0 !! path).
  { induction Hruns as [|[st1 now1] runs [[ds1 body1] Hu1] Hruns IH]; intros fs0 Hpre.
    - destruct (update_run_step fs0 h st now ds body Hpre Hu)
        as (fs' & Hrun & Hb & Hh & Hother).
      exists fs'. cbn. by rewrite Hrun.
    - destruct (update_run_step fs0 h st1 now1 ds1 body1 Hpre Hu1)
        as (fs1 & Hrun & Hb & _ & Hother1).
      destruct (IH fs1 (or_intror Hb)) as (fs' & Hall & Hb' & Hh' & Hother).
      exists fs'. cbn. rewrite Hrun. split; [done|]. split; [done|].
      split; [done|]. intros path H1 H2 H3.
      rewrite Hother by done. by apply Hother1. }
  destruct (Hgen fs (or_introl Hfresh)) as (fs' & Hall & (_ & Ho & Ht & _) & Hh & Hother).
  by exists fs'.
Qed.

(** Two updates on a fresh machine, the group being live at the first and
    not at the second. *)
Lemma original_is_kept_across_updates_two :
  let fs := mkFiles {[ hosts_file := "127.0.0.1 localhost"%string ]} ∅ ∅ in
  let st := mkStore ["work"]
              {[ "work" := mkGroup ["9-17"] ["example.com"] ["*"] ]} in
  ∃ fs',
    update_all [(st, mkInstant 10 0); (st, mkInstant 17 0)] fs = Returned fs'
    ∧ contents fs' !! hosts_file_original = Some "127.0.0.1 localhost"%string
    ∧ contents fs' !! hosts_file
      = Some (("127.0.0.1 localhost" +:+ disclaimer) +:+ EmptyString).
Proof.
  intros fs st.
  destruct (original_is_kept_across_updates fs "127.0.0.1 localhost"
              [(st, mkInstant 10 0)] st (mkInstant 17 0) [] EmptyString)
    as (fs' & Hall & Ho & _ & Hh & _).
  - unfold fresh_files. split; [reflexivity|]. split; [reflexivity|].
    split; [reflexivity|]. split; reflexivity.
  - constructor; [|constructor]. eexists. reflexivity.
  - reflexivity.
  - exists fs'. split; [exact Hall|]. split; [exact Ho|exact Hh].
Defined.

(** X25.  With [--confirm], [update_hosts] takes the first answer that
    begins with "y", "n" or "quit", in the case it was typed: exactly "n"
    or "quit" exits with status 0 before the hosts file is written, though
    the original and the template have been created by then; any other
    such answer (also "no") writes the file as a run without confirmation
    does; other answers are asked again, and the end of the input raises
    EOFError. *)
Theorem confirmed_update_takes_first_known_answer
    (st : Store) (now : Instant) (inputs : list string)
    (fs fs1 : Files) (template : string) (r : list string * string) :
  _init_hosts fs = Returned fs1 →
  read_file hosts_file_template fs1 = Some template →
  update_hosts st now = Ok r →
  update_hosts_run true st now inputs fs =
  match first_known inputs with
  | [] => Crashed EOFError fs1
  | command :: _ =>
      if bool_decide (command = "quit"%string) || bool_decide (command = "n"%string)
      then Exited 0 fs1
      else update_hosts_run false st now inputs fs
  end
  ∧ contents fs1 !! hosts_file = contents fs !! hosts_file.
Proof.
  intros Hi Hr Hu. split; [|by apply init_hosts_Returned].
  unfold update_hosts_run. rewrite Hi, Hr, Hu. destruct r as [ds body].
  rewrite confirm_first_known.
  destruct (first_known inputs) as [|c rest]; [done|].
  by destruct (bool_decide (c = "quit"%string) || bool_decide (c = "n"%string)).
Qed.

(** The answers "N" (not recognized) and then "no" (which writes). *)
Lemma confirmed_update_takes_first_known_answer_no :
  let fs := mkFiles {[ hosts_file := "127.0.0.1 localhost"%string ]} ∅ ∅ in
  let st := mkStore ["default"]
              {[ "default" := mkGroup ["*"] ["example.com"] ["*"] ]} in
  update_hosts_run true st (mkInstant 10 0) ["N"; "no"]%string fs
  = update_hosts_run false st (mkInstant 10 0) ["N"; "no"]%string fs
  ∧ update_hosts_run true st (mkInstant 10 0) ["n"]%string fs
    = Exited 0 (mkFiles {[ hosts_file := "127.0.0.1 localhost"%string;
                           hosts_file_original := "127.0.0.1 localhost"%string;
                           hosts_file_template := "127.0.0.1 localhost"%string ]}
                  ∅ ∅).
Proof.
  intros fs st. split.
  - apply (confirmed_update_takes_first_known_answer st (mkInstant 10 0)
             ["N"; "no"]%string fs
             (mkFiles (<[hosts_file_template := "127.0.0.1 localhost"%string]>
                         (<[hosts_file_original := "127.0.0.1 localhost"%string]>
                            (contents fs))) ∅ ∅)
             "127.0.0.1 localhost" (["example.com"%string],
               line_prefix +:+ "example.com")); reflexivity.
  - vm_compute. reflexivity.
Defined.

(** ** The constructor *)

Section Main.

Lemma list_loop_raise st now names name e :
  name ∈ names → is_live st name now = Raise e →
  list_loop st now names = Raise ValueError.
Proof.
  intros Hin Hl. induction names as [|name' names IH]; [by apply elem_of_nil in Hin|].
  cbn [list_loop]. unfold list_running at 1.
  destruct (is_live st name' now) as [b|e'] eqn:E.
  - apply elem_of_cons in Hin as [->|Hin]; [congruence|].
    cbn. by rewrite (IH Hin).
  - cbn. by rewrite (is_live_raises _ _ _ _ E).
Qed.

End Main.

(** X26.  [--activate] and [--deactivate] by themselves save the document
    and leave the hosts files as they are: the constructor runs
    [update_hosts] only when the update flag is set (by [--update],
    [--cron], or one of [add], [remove] and [empty]) or when no argument
    was given, so a deactivated group stays blocked until a later
    update. *)
Theorem activate_and_deactivate_do_not_regenerate
    (f : Flags) (o : Options) (now : Instant) (inputs : list string)
    (st : Store) (fs : Files) :
  f_remove f = false → opt_empty o = None → f_add f = false →
  f_list f = false → f_update f = false → f_cron f = false →
  f_no_args f = false →
  main f o now inputs st fs =
  Returned
    (if f_activate f
     then mkWorld (activate o st) (Some (activate o st)) false
     else if f_deactivate f
          then mkWorld (deactivate o st) (Some (deactivate o st)) false
          else mkWorld st None false,
     fs).
Proof.
  intros Hr He Ha Hl Hu Hc Hn. unfold main, run_action.
  rewrite Hr, He, Ha, Hl, Hu, Hc, Hn.
  rewrite (bool_decide_false (is_Some None)) by (by intros [? ?]).
  by destruct (f_activate f), (f_deactivate f).
Qed.

(** [--deactivate --group work] after the hosts file was generated. *)
Lemma activate_and_deactivate_do_not_regenerate_work :
  let st := mkStore ["work"]
              {[ "work" := mkGroup ["*"] ["example.com"] ["*"] ]} in
  let fs := mkFiles {[ hosts_file := "generated"%string ]} ∅ ∅ in
  main (mkFlags false false false true false false false false false)
    (with_group "work") (mkInstant 10 0) [] st fs
  = Returned (mkWorld (mkStore [] (groups st)) (Some (mkStore [] (groups st))) false,
              fs).
Proof.
  intros st fs.
  apply (activate_and_deactivate_do_not_regenerate
           (mkFlags false false false true false false false false false)
           (with_group "work") (mkInstant 10 0) [] st fs); reflexivity.
Defined.

(** X27.  [--add] always goes on to [update_hosts] with the document it
    has just saved, and then ends in [sys.exit]; with [--cron] no
    confirmation is asked even if [--confirm] was given.  When [add]
    raises, nothing is saved and the hosts files are not touched. *)
Theorem add_always_regenerates
    (f : Flags) (o : Options) (now : Instant) (inputs : list string)
    (st : Store) (fs : Files) :
  f_remove f = false → opt_empty o = None → f_add f = true →
  f_list f = false →
  main f o now inputs st fs =
  match add o st with
  | Ok st' =>
      let w := mkWorld st' (Some st') true in
      match update_hosts_run (if f_cron f then false else f_confirm f)
              st' now inputs fs with
      | Returned fs' => Returned (w, fs')
      | Exited code fs' => Exited code (w, fs')
      | Crashed e fs' => Crashed e (w, fs')
      end
  | Raise e =>
      Crashed (OfPy e)
        (mkWorld st None (if f_cron f then true else f_update f), fs)
  end.
Proof.
  intros Hr He Ha Hl. unfold main, run_action.
  rewrite Hr, He, Ha, Hl.
  rewrite (bool_decide_false (is_Some None)) by (by intros [? ?]).
  cbn [w_data]. by destruct (add o st).
Qed.

(** [--add --domain example.com] on a fresh machine. *)
Lemma add_always_regenerates_fresh :
  let fs := mkFiles {[ hosts_file := "127.0.0.1 localhost"%string ]} ∅ ∅ in
  ∃ w fs',
    main (mkFlags false true false false false false false false false)
      (with_domain "example.com") (mkInstant 10 0) [] initial_store fs
    = Exited 0 (w, fs')
    ∧ contents fs' !! hosts_file
      = Some (("127.0.0.1 localhost" +:+ disclaimer)
              +:+ line_prefix +:+ "example.com").
Proof.
  intros fs. eexists _, _. split.
  - rewrite (add_always_regenerates
               (mkFlags false true false false false false false false false)
               (with_domain "example.com") (mkInstant 10 0) [] initial_store fs);
      [|reflexivity|reflexivity|reflexivity|reflexivity].
    vm_compute. reflexivity.
  - reflexivity.
Defined.

(** X28.  [list] evaluates [_is_live] for every group it shows, active or
    not, whereas [update_hosts] looks at the active ones only: a group that
    is not active and has an hours entry that cannot be read at this hour
    makes [--list] raise ValueError, for all groups and for that group
    alone, while the update still goes through. *)
Theorem list_reads_inactive_groups
    (st : Store) (name : string) (g : Group) (now : Instant) (e : Py.exn) :
  groups st !! name = Some g → is_live st name now = Raise e →
  name ∉ active st →
  (∀ n g', n ∈ active st → groups st !! n = Some g' →
           ∃ b, is_live st n now = Ok b) →
  list_groups no_options st now = Raise ValueError
  ∧ list_groups (with_group name) st now = Raise ValueError
  ∧ ∃ r, update_hosts st now = Ok r.
Proof.
  intros Hg Hl Hin Hlive. split; [|split].
  - unfold list_groups. cbn [opt_group no_options].
    apply (list_loop_raise st now _ name e); [|done].
    apply list_elem_of_fmap. exists (name, g). split; [done|].
    by apply elem_of_map_to_list.
  - unfold list_groups. cbn [opt_group with_group].
    rewrite bool_decide_true by (by rewrite Hg).
    apply (list_loop_raise st now _ name e); [left|done].
  - destruct (collect_domains_spec st now (active st) ∅ Hlive)
      as (found & Hfound & _).
    exists (render found). unfold update_hosts. by rewrite Hfound.
Qed.

(** An inactive group with the entry "9-x", at hour 10. *)
Lemma list_reads_inactive_groups_old :
  let old := mkGroup ["9-x"] ["old.org"] ["*"] in
  let st := mkStore ["default"]
              {[ "default" := mkGroup ["*"] ["example.com"] ["*"]; "old" := old ]} in
  list_groups no_options st (mkInstant 10 0) = Raise ValueError
  ∧ ∃ r, update_hosts st (mkInstant 10 0) = Ok r.
Proof.
  intros old st.
  destruct (list_reads_inactive_groups st "old" old (mkInstant 10 0) ValueError)
    as (Hlist & _ & Hupd).
  - reflexivity.
  - reflexivity.
  - intros Hx%list_elem_of_singleton. discriminate Hx.
  - intros n g' Hn _. simpl in Hn. apply list_elem_of_singleton in Hn as ->.
    by exists true.
  - split; [exact Hlist|exact Hupd].
Defined.
